(** * Graph-ARG: the retrieval-and-grounding pipeline, embedded in Rocq

    A shallow embedding of [pdf_processor.py], [embeddings.py],
    [vector_store.py], [response_generator.py], [rag_orchestrator.py] and
    the handlers of [app.py], followed by the properties the design
    document states about them and by further properties of the code.

    Conventions of the embedding.
    - A Python [str] is a list of Unicode code points ([pystr]); [len] is the
      list length.
    - A Python function that can raise returns an [outcome]; a method that
      talks to the outside (Gemini, Neo4j, the clock, the random generator)
      is a state transformer over a [world] that records the database
      contents and the trace of external calls.
    - 64-bit floats are an abstract type [num] with the operations the code
      uses; no theorem below depends on an arithmetic law of floats.
    - Console output is left out, except the line in which
      [delete_by_source] reports its count (the only place where that count
      leaves the method).
    - The database executes every statement it is sent; a lost connection
      is not part of the model. *)

From Stdlib Require Import String Ascii.
From Stdlib Require Import ZArith NArith List Bool Lia.
From Stdlib Require Import Permutation Sorted.
From Stdlib Require DecimalZ.
Import ListNotations.
Local Open Scope Z_scope.

(** ** Python strings *)

Module PyStr.

Definition pystr := list N.

(** A literal of ASCII text. *)
Fixpoint lit (s : string) : pystr :=
  match s with
  | EmptyString => []
  | String c r => N_of_ascii c :: lit r
  end.

Definition len (s : pystr) : Z := Z.of_nat (length s).

Fixpoint eqb (a b : pystr) : bool :=
  match a, b with
  | [], [] => true
  | x :: a', y :: b' => N.eqb x y && eqb a' b'
  | _, _ => false
  end.

(** [str(n)] / [f"{n}"] for an [int]. *)
Fixpoint digits (u : Decimal.uint) : pystr :=
  match u with
  | Decimal.Nil => []
  | Decimal.D0 r => 48%N :: digits r
  | Decimal.D1 r => 49%N :: digits r
  | Decimal.D2 r => 50%N :: digits r
  | Decimal.D3 r => 51%N :: digits r
  | Decimal.D4 r => 52%N :: digits r
  | Decimal.D5 r => 53%N :: digits r
  | Decimal.D6 r => 54%N :: digits r
  | Decimal.D7 r => 55%N :: digits r
  | Decimal.D8 r => 56%N :: digits r
  | Decimal.D9 r => 57%N :: digits r
  end.

Definition of_int (z : Z) : pystr :=
  match Z.to_int z with
  | Decimal.Pos u => digits u
  | Decimal.Neg u => 45%N :: digits u
  end.

(** [sep.join(parts)]. *)
Fixpoint join (sep : pystr) (parts : list pystr) : pystr :=
  match parts with
  | [] => []
  | [p] => p
  | p :: rest => p ++ sep ++ join sep rest
  end.

(** [needle in hay]. *)
Fixpoint starts_with (needle hay : pystr) : bool :=
  match needle, hay with
  | [], _ => true
  | x :: n', y :: h' => N.eqb x y && starts_with n' h'
  | _ :: _, [] => false
  end.

Fixpoint contains (needle hay : pystr) : bool :=
  starts_with needle hay ||
  match hay with
  | [] => false
  | _ :: h' => contains needle h'
  end.

(** [s.lower()].  Only the ASCII capitals are mapped.  The one use in the
    code is the test ["quota" in str(e).lower()]: no code point outside
    A..Z lower-cases to one of q, u, o, t, a, so the test has the same
    value as under the full Unicode mapping. *)
Definition lower_char (c : N) : N :=
  if (65 <=? c)%N && (c <=? 90)%N then (c + 32)%N else c.

Definition lower (s : pystr) : pystr := map lower_char s.

(** [str.isspace] for one code point (the characters [str.strip] removes). *)
Definition is_space (c : N) : bool :=
  ((9 <=? c) && (c <=? 13) || (28 <=? c) && (c <=? 32)
   || (c =? 133) || (c =? 160) || (c =? 5760)
   || (8192 <=? c) && (c <=? 8202)
   || (c =? 8232) || (c =? 8233) || (c =? 8239) || (c =? 8287)
   || (c =? 12288))%N.

Fixpoint lstrip (s : pystr) : pystr :=
  match s with
  | c :: r => if is_space c then lstrip r else s
  | [] => []
  end.

Definition strip (s : pystr) : pystr := rev (lstrip (rev (lstrip s))).

(** [s.split('\n\n')]: cut at each non-overlapping blank-line separator,
    scanning from the left; [cur] holds the piece being read, reversed. *)
Fixpoint split_blank_lines_from (cur s : pystr) : list pystr :=
  match s with
  | 10%N :: 10%N :: r => rev cur :: split_blank_lines_from [] r
  | c :: r => split_blank_lines_from (c :: cur) r
  | [] => [rev cur]
  end.

Definition split_blank_lines (s : pystr) : list pystr :=
  split_blank_lines_from [] s.

(** Truthiness of a string: [if text]. *)
Definition truthy (s : pystr) : bool :=
  match s with [] => false | _ => true end.

End PyStr.
Import PyStr.

(** ** Exceptions and outcomes *)

(** A raised exception: its class name and [str(e)]. *)
Record exn := Exn { exn_class : pystr; exn_msg : pystr }.

Inductive outcome (A : Type) : Type :=
| Ok (a : A)
| Raise (e : exn).
Arguments Ok {A} a.
Arguments Raise {A} e.

(** [range(n)] *)
Definition py_range (n : Z) : list Z := map Z.of_nat (seq 0 (Z.to_nat n)).

(** The test both retry loops apply to a caught exception:
    ["429" in str(e) or "quota" in str(e).lower()]. *)
Definition is_rate_limit (e : exn) : bool :=
  contains (lit "429") (exn_msg e) || contains (lit "quota") (lower (exn_msg e)).

(** [Exception("❌ Rate limit exceeded. Please wait and try again.")];
    the first code point is U+274C. *)
Definition rate_limit_exceeded : exn :=
  Exn (lit "Exception")
      (10060%N :: lit " Rate limit exceeded. Please wait and try again.").

(** ** The chunk dictionaries of [pdf_processor.py] *)

Inductive pyval :=
| PyNone
| PyInt (z : Z)
| PyStr (s : pystr).

Record chunk := Chunk {
  chunk_id_of : pystr;                      (* chunk["id"] *)
  chunk_text : pystr;                       (* chunk["text"] *)
  chunk_source : pystr;                     (* chunk["source"] *)
  chunk_index_of : Z;                       (* chunk["chunk_index"] *)
  chunk_metadata : list (pystr * pyval)     (* chunk["metadata"] *)
}.

(** [chunk["metadata"]["length"]] *)
Fixpoint metadata_length (md : list (pystr * pyval)) : option Z :=
  match md with
  | [] => None
  | (k, v) :: r =>
      if PyStr.eqb k (lit "length")
      then match v with PyInt z => Some z | _ => None end
      else metadata_length r
  end.

Section Pipeline.

Set Default Proof Using "Type".

(** 64-bit floats, with the operations the code applies to them. *)
Variable num : Type.
Variable num_zero : num.                  (* 0.0 *)
Variable num_add : num -> num -> num.
Variable num_mul : num -> num -> num.
Variable num_of_int : Z -> num.           (* int -> float coercion *)

(** ** The world outside the process *)

Inductive event :=
| EvEmbed (model content task_type : pystr)   (* genai.embed_content *)
| EvGenerate (model prompt : pystr)           (* GenerativeModel.generate_content *)
| EvSleep (seconds : num)                     (* time.sleep *)
| EvPrint (line : pystr).                     (* print *)

(** A Neo4j [:Chunk] node.  An absent ([null]) embedding is [None]. *)
Record node := Node {
  id : pystr;
  text : pystr;
  source : pystr;
  chunk_index : Z;
  embedding : option (list num);
  metadata : pystr
}.

(** The database holds its nodes in creation order; [trace] lists the
    external calls made so far, oldest first. *)
Record world := World {
  db : list node;
  trace : list event
}.

Definition M (A : Type) : Type := world -> outcome A * world.

Definition ret {A} (a : A) : M A := fun w => (Ok a, w).
Definition throw {A} (e : exn) : M A := fun w => (Raise e, w).
Definition bind {A B} (m : M A) (k : A -> M B) : M B :=
  fun w => match m w with
           | (Ok a, w1) => k a w1
           | (Raise e, w1) => (Raise e, w1)
           end.
Notation "x <- m ;; k" := (bind m (fun x => k))
  (at level 61, m at next level, right associativity).

(** The providers and the random generator are oracles that may answer
    according to everything that happened before. *)
Variable embed_content : list event -> pystr -> pystr -> pystr -> outcome (list num).
Variable generate_content : list event -> pystr -> pystr -> outcome pystr.
Variable random_uniform_0_1 : list event -> num.    (* random.uniform(0, 1) *)

(** One call to a provider: the answer is the oracle's, and the call is
    recorded. *)
Definition upstream {A} (ev : event) (respond : list event -> outcome A) : M A :=
  fun w => (respond (trace w), World (db w) (trace w ++ [ev])).

(** ** The retry loop of [EmbeddingGenerator.generate] and
       [ResponseGenerator.generate]

    [for attempt in range(self.max_retries): try: return call()
     except Exception as e: ...].  Falling out of the loop returns [None]. *)
Fixpoint retry_loop {A} (call : M A) (max_retries : Z) (attempts : list Z)
  : M (option A) :=
  fun w =>
    match attempts with
    | [] => (Ok None, w)
    | attempt :: rest =>
        match call w with
        | (Ok v, w1) => (Ok (Some v), w1)
        | (Raise e, w1) =>
            if is_rate_limit e then
              if attempt <? max_retries - 1 then
                let wait_time :=
                  num_add (num_of_int (2 ^ attempt)) (random_uniform_0_1 (trace w1)) in
                retry_loop call max_retries rest
                           (World (db w1) (trace w1 ++ [EvSleep wait_time]))
              else (Raise rate_limit_exceeded, w1)
            else (Raise e, w1)
        end
    end.

(** ** embeddings.py *)

Record EmbeddingGenerator := {
  eg_api_key : pystr;
  eg_model : pystr;
  eg_max_retries : Z
}.

Definition embed_call (self : EmbeddingGenerator) (text task_type : pystr)
  : M (list num) :=
  upstream (EvEmbed (eg_model self) text task_type)
           (fun tr => embed_content tr (eg_model self) text task_type).

Definition EmbeddingGenerator_generate (self : EmbeddingGenerator) (text task_type : pystr)
  : M (option (list num)) :=
  retry_loop (embed_call self text task_type)
             (eg_max_retries self) (py_range (eg_max_retries self)).

Definition generate_query_embedding (self : EmbeddingGenerator) (query : pystr) :=
  EmbeddingGenerator_generate self query (lit "retrieval_query").

Definition generate_document_embedding (self : EmbeddingGenerator) (document : pystr) :=
  EmbeddingGenerator_generate self document (lit "retrieval_document").

(** ** vector_store.py *)

(** [str(metadata)]: Python's rendering of a dictionary, taken as given. *)
Variable str_of_dict : list (pystr * pyval) -> pystr.

(** How Neo4j answers a query is not part of the repository.  Two facts
    about it are parameters of the model.
    - [scan] is the order in which [MATCH (c:Chunk)] enumerates the nodes.
    - [num_geb a b] says that the float [a] comes no later than [b] under
      [ORDER BY ... DESC].
    [ORDER BY] is then a stable sort of the scanned rows: since [scan] is
    arbitrary, every order a database may give to rows with equal keys is
    the result for some [scan]. *)
Variable scan : list node -> list node.
Variable num_geb : num -> num -> bool.

Definition has_id (i : pystr) (c : node) : bool := PyStr.eqb (id c) i.
Definition has_source (s : pystr) (c : node) : bool := PyStr.eqb (source c) s.

(** [MERGE (c:Chunk {id: $id}) SET c.text = ..., ...]: every node with
    that id gets the new properties; when there is none, one is created. *)
Definition merge_set (props : node) (nodes : list node) : list node :=
  if existsb (has_id (id props)) nodes
  then map (fun c => if has_id (id props) c then props else c) nodes
  else nodes ++ [props].

Definition store_chunk (chunk_id text : pystr) (embedding : option (list num))
    (source : pystr) (chunk_index : Z) (metadata : list (pystr * pyval))
  : M pyval :=
  fun w =>
    (Ok PyNone,
     World (merge_set (Node chunk_id text source chunk_index embedding
                            (str_of_dict metadata)) (db w))
           (trace w)).

(** [for chunk, embedding in zip(chunks, embeddings): self.store_chunk(...)] *)
Fixpoint store_each (pairs : list (chunk * option (list num))) : M pyval :=
  match pairs with
  | [] => ret PyNone
  | (chunk, embedding) :: rest =>
      _ <- store_chunk (chunk_id_of chunk) (chunk_text chunk) embedding
                       (chunk_source chunk) (chunk_index_of chunk)
                       (chunk_metadata chunk) ;;
      store_each rest
  end.

Definition store_chunks_batch (chunks : list chunk)
    (embeddings : list (option (list num))) : M pyval :=
  store_each (combine chunks embeddings).

(** Cypher arithmetic and list indexing: [null] in, [null] out; an index
    past the end of a list gives [null]. *)
Definition cy_add (a b : option num) : option num :=
  match a, b with Some x, Some y => Some (num_add x y) | _, _ => None end.
Definition cy_mul (a b : option num) : option num :=
  match a, b with Some x, Some y => Some (num_mul x y) | _, _ => None end.
Definition cy_index (l : option (list num)) (i : nat) : option num :=
  match l with Some v => nth_error v i | None => None end.

(** [reduce(dot = 0.0, i IN range(0, size(c.embedding)-1) |
            dot + c.embedding[i] * $query_embedding[i])] *)
Definition similarity (c : node) (query_embedding : option (list num))
  : option num :=
  match embedding c with
  | None => None
  | Some e =>
      fold_left
        (fun dot i =>
           cy_add dot (cy_mul (cy_index (Some e) i) (cy_index query_embedding i)))
        (seq 0 (length e)) (Some num_zero)
  end.

(** [ORDER BY similarity DESC]; [null] sorts before every number. *)
Definition desc_before (a b : option num) : bool :=
  match a, b with
  | None, _ => true
  | Some _, None => false
  | Some x, Some y => num_geb x y
  end.

Definition row : Type := node * option num.

Fixpoint insert_desc (r : row) (sorted : list row) : list row :=
  match sorted with
  | [] => [r]
  | h :: t =>
      if desc_before (snd r) (snd h) then r :: sorted
      else h :: insert_desc r t
  end.

Fixpoint order_by_similarity_desc (rows : list row) : list row :=
  match rows with
  | [] => []
  | r :: rest => insert_desc r (order_by_similarity_desc rest)
  end.

(** One element of the list [search_similar] returns. *)
Record hit := Hit {
  hit_id : pystr;
  hit_text : pystr;
  hit_source : pystr;
  hit_chunk_index : Z;
  hit_similarity : num
}.

Definition type_error_float_none : exn :=
  Exn (lit "TypeError")
      (lit "float() argument must be a string or a real number, not 'NoneType'").

(** Neo4j rejects a negative [LIMIT]; class and text of the error are the
    driver's and play no part below. *)
Definition limit_error : exn :=
  Exn (lit "ClientError") (lit "LIMIT: must be a non-negative integer").

(** [for record in result: chunks.append({..., "similarity":
    float(record["similarity"])})] *)
Fixpoint records_to_chunks (records : list row) (chunks : list hit)
  : outcome (list hit) :=
  match records with
  | [] => Ok chunks
  | (c, s) :: rest =>
      match s with
      | None => Raise type_error_float_none
      | Some v =>
          records_to_chunks rest
            (chunks ++ [Hit (id c) (text c) (source c) (chunk_index c) v])
      end
  end.

Definition run_search_query (nodes : list node)
    (query_embedding : option (list num)) (top_k : Z) : list row :=
  firstn (Z.to_nat top_k)
    (order_by_similarity_desc
       (map (fun c => (c, similarity c query_embedding)) (scan nodes))).

Definition search_similar (query_embedding : option (list num)) (top_k : Z)
  : M (list hit) :=
  fun w =>
    if top_k <? 0 then (Raise limit_error, w)
    else (records_to_chunks (run_search_query (db w) query_embedding top_k) [], w).

(** [MATCH (c:Chunk) RETURN count(c)] *)
Definition get_chunk_count : M Z :=
  fun w => (Ok (Z.of_nat (length (db w))), w).

(** [MATCH (c:Chunk {source: $source}) DELETE c RETURN count(c)], then the
    count is printed; the method has no [return] statement.  The line
    starts with U+1F5D1 U+FE0F. *)
Definition deleted_line (deleted : Z) (source : pystr) : pystr :=
  [128465%N; 65039%N] ++ lit "  Deleted " ++ of_int deleted
    ++ lit " chunks from source: " ++ source.

Definition delete_by_source (source : pystr) : M pyval :=
  fun w =>
    let deleted := Z.of_nat (length (filter (has_source source) (db w))) in
    (Ok PyNone,
     World (filter (fun c => negb (has_source source c)) (db w))
           (trace w ++ [EvPrint (deleted_line deleted source)])).

(** ** response_generator.py *)

Record ResponseGenerator := {
  rg_api_key : pystr;
  rg_model_name : pystr;
  rg_max_retries : Z
}.

Definition nl : pystr := [10%N].

(** [f"[Context {i} - Source: {chunk['source']}, Chunk {chunk['chunk_index']}]\n"
     f"{chunk['text']}\n"] *)
Definition context_part (i : Z) (chunk : hit) : pystr :=
  lit "[Context " ++ of_int i ++ lit " - Source: " ++ hit_source chunk
    ++ lit ", Chunk " ++ of_int (hit_chunk_index chunk) ++ lit "]" ++ nl
    ++ hit_text chunk ++ nl.

(** [for i, chunk in enumerate(chunks, 1): context_parts.append(...)] *)
Fixpoint context_loop (i : Z) (chunks : list hit) (context_parts : list pystr)
  : list pystr :=
  match chunks with
  | [] => context_parts
  | chunk :: rest =>
      context_loop (i + 1) rest (context_parts ++ [context_part i chunk])
  end.

Definition _build_context (chunks : list hit) : pystr :=
  match chunks with
  | [] => lit "No relevant context found."
  | _ => join nl (context_loop 1 chunks [])
  end.

Definition _create_prompt (query context : pystr) : pystr :=
  lit "You are a helpful AI assistant answering questions based on provided context."
    ++ nl ++ nl
    ++ lit "Context Information:" ++ nl
    ++ context ++ nl ++ nl
    ++ lit "User Question: " ++ query ++ nl ++ nl
    ++ lit "Instructions:" ++ nl
    ++ lit "- Answer the question using ONLY the information provided in the context above" ++ nl
    ++ lit "- Be accurate and specific" ++ nl
    ++ lit "- If the context doesn't contain enough information to fully answer the question, acknowledge this" ++ nl
    ++ lit "- Cite which context sources you used in your answer" ++ nl
    ++ lit "- Keep your answer clear and concise" ++ nl ++ nl
    ++ lit "Answer:".

Definition generate_call (self : ResponseGenerator) (prompt : pystr) : M pystr :=
  upstream (EvGenerate (rg_model_name self) prompt)
           (fun tr => generate_content tr (rg_model_name self) prompt).

Definition ResponseGenerator_generate (self : ResponseGenerator)
    (query : pystr) (context_chunks : list hit) : M (option pystr) :=
  let context := _build_context context_chunks in
  let prompt := _create_prompt query context in
  retry_loop (generate_call self prompt)
             (rg_max_retries self) (py_range (rg_max_retries self)).

(** ** pdf_processor.py *)

(** Docling and [pathlib] are libraries: the converter and the two path
    projections are taken as given. *)
Record element := {
  element_text : option pystr;     (* [None]: no attribute [text] *)
  element_class_name : pystr
}.

Record document := {
  export_to_markdown : outcome pystr;
  iterate_items : list element
}.

Variable convert : pystr -> outcome document.
Variable path_stem : pystr -> pystr.      (* Path(pdf_path).stem *)
Variable path_name : pystr -> pystr.      (* Path(pdf_path).name *)

Record PDFProcessor := { min_chunk_length : Z }.

Definition new_chunk (pdf_path : pystr) (chunk_id : Z) (text : pystr)
    (metadata : list (pystr * pyval)) : chunk :=
  Chunk (path_stem pdf_path ++ lit "_chunk_" ++ of_int chunk_id)
        text (path_name pdf_path) chunk_id metadata.

(** The test both extraction loops apply:
    [if text and len(text) > self.min_chunk_length]. *)
Definition keeps (self : PDFProcessor) (text : pystr) : bool :=
  truthy text && (len text >? min_chunk_length self).

(** Method 1: [for para in paragraphs: text = para.strip(); ...] *)
Fixpoint paragraphs_loop (self : PDFProcessor) (pdf_path : pystr)
    (paragraphs : list pystr) (chunks : list chunk) (chunk_id : Z)
  : list chunk * Z :=
  match paragraphs with
  | [] => (chunks, chunk_id)
  | para :: rest =>
      let text := strip para in
      if keeps self text then
        paragraphs_loop self pdf_path rest
          (chunks ++ [new_chunk pdf_path chunk_id text
                        [(lit "length", PyInt (len text));
                         (lit "extraction_method", PyStr (lit "markdown"))]])
          (chunk_id + 1)
      else paragraphs_loop self pdf_path rest chunks chunk_id
  end.

(** Method 2: [for element in result.document.iterate_items(): ...] *)
Fixpoint elements_loop (self : PDFProcessor) (pdf_path : pystr)
    (elements : list element) (chunks : list chunk) (chunk_id : Z)
  : list chunk * Z :=
  match elements with
  | [] => (chunks, chunk_id)
  | element :: rest =>
      let text := match element_text element with
                  | Some t => strip t
                  | None => []
                  end in
      if keeps self text then
        elements_loop self pdf_path rest
          (chunks ++ [new_chunk pdf_path chunk_id text
                        [(lit "element_type", PyStr (element_class_name element));
                         (lit "length", PyInt (len text));
                         (lit "extraction_method", PyStr (lit "iterate_items"))]])
          (chunk_id + 1)
      else elements_loop self pdf_path rest chunks chunk_id
  end.

Definition extract_chunks (self : PDFProcessor) (pdf_path : pystr)
  : outcome (list chunk) :=
  match convert pdf_path with
  | Raise e => Raise e
  | Ok result =>
      match export_to_markdown result with
      | Ok full_text =>
          Ok (fst (paragraphs_loop self pdf_path
                     (split_blank_lines full_text) [] 0))
      | Raise _ =>
          Ok (fst (elements_loop self pdf_path (iterate_items result) [] 0))
      end
  end.

(** [get_chunk_statistics]: the dictionary with the counts and sizes.  The
    two float operations it needs, [/] and [round(_, 2)], are parameters. *)
Variable num_div : num -> num -> num.
Variable num_round : num -> Z -> num.

Record chunk_statistics := {
  total_chunks : Z;
  total_chars : Z;
  avg_chunk_size : num;
  min_chunk_size : option Z;     (* [None]: the key is absent *)
  max_chunk_size : option Z
}.

Definition key_error_length : exn := Exn (lit "KeyError") (lit "'length'").

Fixpoint metadata_lengths (chunks : list chunk) : outcome (list Z) :=
  match chunks with
  | [] => Ok []
  | c :: rest =>
      match metadata_length (chunk_metadata c), metadata_lengths rest with
      | Some n, Ok ns => Ok (n :: ns)
      | None, _ => Raise key_error_length
      | _, Raise e => Raise e
      end
  end.

Definition get_chunk_statistics (chunks : list chunk) : outcome chunk_statistics :=
  match chunks with
  | [] => Ok {| total_chunks := 0; total_chars := 0;
                avg_chunk_size := num_of_int 0;
                min_chunk_size := None; max_chunk_size := None |}
  | _ =>
      match metadata_lengths chunks with
      | Raise e => Raise e
      | Ok lengths =>
          let total := fold_left Z.add lengths 0 in
          let avg := num_div (num_of_int total)
                             (num_of_int (Z.of_nat (length chunks))) in
          Ok {| total_chunks := Z.of_nat (length chunks);
                total_chars := total;
                avg_chunk_size := num_round avg 2;
                min_chunk_size := Some (fold_left Z.min (tl lengths) (hd 0 lengths));
                max_chunk_size := Some (fold_left Z.max (tl lengths) (hd 0 lengths)) |}
      end
  end.

(** ** config.py and rag_orchestrator.py *)

Record Config := {
  gemini_api_key : pystr;
  embedding_model : pystr;
  generation_model : pystr;
  chunk_min_length : Z;
  top_k_results : Z;
  max_retries : Z
}.

(** [Config.__init__]: the three strings come from the environment, the
    three numbers are fixed. *)
Definition Config_init (api_key emb_model gen_model : pystr) : Config :=
  {| gemini_api_key := api_key;
     embedding_model := emb_model;
     generation_model := gen_model;
     chunk_min_length := 20;
     top_k_results := 5;
     max_retries := 3 |}.

Record RAGOrchestrator := {
  config : Config;
  pdf_processor : PDFProcessor;
  embedding_generator : EmbeddingGenerator;
  response_generator : ResponseGenerator
}.

Definition RAGOrchestrator_init (cfg : Config) : RAGOrchestrator :=
  {| config := cfg;
     pdf_processor := {| min_chunk_length := chunk_min_length cfg |};
     embedding_generator :=
       {| eg_api_key := gemini_api_key cfg;
          eg_model := embedding_model cfg;
          eg_max_retries := max_retries cfg |};
     response_generator :=
       {| rg_api_key := gemini_api_key cfg;
          rg_model_name := generation_model cfg;
          rg_max_retries := max_retries cfg |} |}.

(** The dictionary [process_and_store_pdf] returns. *)
Record ingest_report := {
  success : bool;
  message : pystr;
  chunks_processed : Z;
  statistics : option chunk_statistics     (* [None]: the key is absent *)
}.

(** [for i, chunk in enumerate(chunks, 1):
       embedding = self.embedding_generator.generate_document_embedding(chunk["text"])
       embeddings.append(embedding)] *)
Fixpoint embed_loop (self : RAGOrchestrator) (chunks : list chunk)
    (embeddings : list (option (list num))) : M (list (option (list num))) :=
  match chunks with
  | [] => ret embeddings
  | chunk :: rest =>
      embedding <- generate_document_embedding (embedding_generator self)
                                               (chunk_text chunk) ;;
      embed_loop self rest (embeddings ++ [embedding])
  end.

(** Line 104 reads the name [stats].  Its only assignment, on line 81, is
    commented out, and the module binds no such global: evaluating the
    dictionary display raises [NameError]. *)
Definition name_error_stats : exn :=
  Exn (lit "NameError") (lit "name 'stats' is not defined").

Definition process_and_store_pdf (self : RAGOrchestrator) (pdf_path : pystr)
  : M ingest_report :=
  fun w =>
    match extract_chunks (pdf_processor self) pdf_path with
    | Raise e => (Raise e, w)
    | Ok [] =>
        (Ok {| success := false;
               message := lit "No chunks extracted from PDF";
               chunks_processed := 0;
               statistics := None |}, w)
    | Ok chunks =>
        (embeddings <- embed_loop self chunks [] ;;
         _ <- store_chunks_batch chunks embeddings ;;
         throw name_error_stats) w
    end.

(** The dictionary [query] returns. *)
Record query_result := {
  question_of : pystr;
  answer : option pystr;       (* [None]: Python's [None] *)
  sources : list hit
}.

Definition no_information_answer : pystr :=
  lit "I couldn't find any relevant information in the knowledge base to answer your question.".

Definition query (self : RAGOrchestrator) (question : pystr) (top_k : option Z)
  : M query_result :=
  let top_k := match top_k with
               | None => top_k_results (config self)
               | Some k => k
               end in
  query_embedding <- generate_query_embedding (embedding_generator self) question ;;
  relevant_chunks <- search_similar query_embedding top_k ;;
  match relevant_chunks with
  | [] =>
      ret {| question_of := question;
             answer := Some no_information_answer;
             sources := [] |}
  | _ =>
      answer <- ResponseGenerator_generate (response_generator self)
                                           question relevant_chunks ;;
      ret {| question_of := question;
             answer := answer;
             sources := relevant_chunks |}
  end.

Definition delete_document (source : pystr) : M pyval :=
  _ <- delete_by_source source ;; ret PyNone.

(** ** vector_store.py and rag_orchestrator.py: the catalogue *)

(** The order Neo4j gives to strings under [ORDER BY] is a parameter, like
    the order of floats. *)
Variable str_leb : pystr -> pystr -> bool.

(** [RETURN DISTINCT c.source]: one row for each value. *)
Fixpoint distinct (values : list pystr) : list pystr :=
  match values with
  | [] => []
  | v :: rest =>
      if existsb (PyStr.eqb v) rest then distinct rest else v :: distinct rest
  end.

(** [ORDER BY source] *)
Fixpoint insert_str (s : pystr) (sorted : list pystr) : list pystr :=
  match sorted with
  | [] => [s]
  | h :: t => if str_leb s h then s :: sorted else h :: insert_str s t
  end.

Fixpoint order_by_str (values : list pystr) : list pystr :=
  match values with
  | [] => []
  | v :: rest => insert_str v (order_by_str rest)
  end.

(** [MATCH (c:Chunk) RETURN DISTINCT c.source AS source ORDER BY source] *)
Definition get_all_sources : M (list pystr) :=
  fun w => (Ok (order_by_str (distinct (map source (scan (db w))))), w).

(** The dictionary [get_database_info] returns. *)
Record database_info := {
  info_total_chunks : Z;
  info_total_documents : Z;
  info_documents : list pystr
}.

Definition get_database_info : M database_info :=
  chunk_count <- get_chunk_count ;;
  sources <- get_all_sources ;;
  ret {| info_total_chunks := chunk_count;
         info_total_documents := Z.of_nat (length sources);
         info_documents := sources |}.

(** ** app.py: the handlers behind the buttons

    The orchestrator the module creates at import time is the argument
    [rag].  An uploaded file is given by its [name]; a text box may hand
    over [None].  The library functions the handlers call on floats and
    paths are parameters. *)
Variable os_path_basename : pystr -> pystr.
Variable num_str : num -> pystr.            (* f"{x}" *)
Variable num_format_4f : num -> pystr.      (* f"{x:.4f}" *)
Variable py_int : num -> outcome Z.         (* int(x) *)

(** [try: body except Exception as e: handler(e)] *)
Definition try_except {A} (body : M A) (handler : exn -> M A) : M A :=
  fun w => match body w with
           | (Ok a, w1) => (Ok a, w1)
           | (Raise e, w1) => handler e w1
           end.

Definition cross_mark : pystr := [10060%N].        (* U+274C *)
Definition check_mark : pystr := [9989%N].         (* U+2705 *)

(** [for doc in info['documents']: status += f"  • {doc}\n"] *)
Fixpoint documents_loop (docs : list pystr) (status : pystr) : pystr :=
  match docs with
  | [] => status
  | doc :: rest =>
      documents_loop rest (status ++ lit "  " ++ [8226%N] ++ lit " " ++ doc ++ nl)
  end.

Definition status_header (info : database_info) : pystr :=
  [128202%N] ++ lit " **Database Status**" ++ nl ++ nl
    ++ [128218%N] ++ lit " **Total Documents:** "
    ++ of_int (info_total_documents info) ++ nl
    ++ [128196%N] ++ lit " **Total Chunks:** "
    ++ of_int (info_total_chunks info) ++ nl ++ nl
    ++ lit "**Indexed Documents:**" ++ nl.

Definition get_database_status : M pystr :=
  try_except
    (info <- get_database_info ;;
     let status := status_header info in
     ret (match info_documents info with
          | [] => status ++ lit "  (No documents yet)" ++ nl
          | docs => documents_loop docs status
          end))
    (fun e => ret (cross_mark ++ lit " Error retrieving database status: "
                     ++ exn_msg e)).

Definition key_error_statistics : exn :=
  Exn (lit "KeyError") (lit "'statistics'").

Definition upload_success_message (pdf_path : pystr) (result : ingest_report)
    (stats : chunk_statistics) : pystr :=
  check_mark ++ lit " **PDF Processed Successfully!**" ++ nl
    ++ lit "            " ++ nl
    ++ [128196%N] ++ lit " **File:** " ++ os_path_basename pdf_path ++ nl
    ++ [128202%N] ++ lit " **Chunks Created:** "
    ++ of_int (chunks_processed result) ++ nl
    ++ [128207%N] ++ lit " **Average Chunk Size:** "
    ++ num_str (avg_chunk_size stats) ++ lit " characters" ++ nl
    ++ [128200%N] ++ lit " **Total Characters:** "
    ++ of_int (total_chars stats) ++ nl ++ nl
    ++ lit "Your document has been indexed and is ready for querying!".

Definition upload_and_process_pdf (rag : RAGOrchestrator)
    (pdf_file : option pystr) : M (pystr * pystr) :=
  match pdf_file with
  | None =>
      status <- get_database_status ;;
      ret (cross_mark ++ lit " Please upload a PDF file", status)
  | Some pdf_path =>
      try_except
        (result <- process_and_store_pdf rag pdf_path ;;
         message <-
           (if success result then
              match statistics result with
              | Some stats => ret (upload_success_message pdf_path result stats)
              | None => throw key_error_statistics
              end
            else ret (cross_mark ++ lit " **Processing Failed:** "
                        ++ message result)) ;;
         status <- get_database_status ;;
         ret (message, status))
        (fun e =>
           status <- get_database_status ;;
           ret (cross_mark ++ lit " **Error processing PDF:** " ++ exn_msg e,
                status))
  end.

(** [for i, source in enumerate(result['sources'], 1): sources_text += ...] *)
Fixpoint sources_loop (i : Z) (srcs : list hit) (sources_text : pystr) : pystr :=
  match srcs with
  | [] => sources_text
  | src :: rest =>
      sources_loop (i + 1) rest
        (sources_text
           ++ (lit "**" ++ of_int i ++ lit ". " ++ hit_source src
                 ++ lit "** (Chunk " ++ of_int (hit_chunk_index src) ++ lit ")" ++ nl)
           ++ (lit "   - Similarity Score: "
                 ++ num_format_4f (hit_similarity src) ++ nl)
           ++ (lit "   - Preview: " ++ firstn 200 (hit_text src)
                 ++ lit "..." ++ nl ++ nl))
  end.

(** [f"{x}"] for a value that is a string or [None]. *)
Definition str_or_none (x : option pystr) : pystr :=
  match x with Some s => s | None => lit "None" end.

(** [not s or not s.strip()] *)
Definition is_blank (s : option pystr) : bool :=
  match s with
  | None => true
  | Some t => negb (truthy t) || negb (truthy (strip t))
  end.

Definition query_rag_system (rag : RAGOrchestrator)
    (question : option pystr) (top_k : num) : M (pystr * pystr) :=
  match question with
  | Some q =>
      if is_blank question
      then ret (cross_mark ++ lit " Please enter a question", [])
      else
        try_except
          (fun w =>
             match py_int top_k with
             | Raise e => (Raise e, w)
             | Ok k =>
                 (result <- query rag q (Some k) ;;
                  let answer_text :=
                    lit "**Answer:**" ++ nl ++ nl ++ str_or_none (answer result) in
                  let sources_text :=
                    sources_loop 1 (sources result) (lit "**Sources:**" ++ nl ++ nl) in
                  ret (answer_text, sources_text)) w
             end)
          (fun e =>
             ret (cross_mark ++ lit " **Error processing query:** " ++ exn_msg e, []))
  | None => ret (cross_mark ++ lit " Please enter a question", [])
  end.

Definition delete_document_handler (document_name : option pystr)
  : M (pystr * pystr) :=
  match document_name with
  | Some name =>
      if is_blank document_name
      then
        status <- get_database_status ;;
        ret (cross_mark ++ lit " Please enter a document name", status)
      else
        try_except
          (_ <- delete_document (strip name) ;;
           let message :=
             check_mark ++ lit " Successfully deleted all chunks from: " ++ name in
           status <- get_database_status ;;
           ret (message, status))
          (fun e =>
             status <- get_database_status ;;
             ret (cross_mark ++ lit " Error deleting document: " ++ exn_msg e, status))
  | None =>
      status <- get_database_status ;;
      ret (cross_mark ++ lit " Please enter a document name", status)
  end.

(** ** Vocabulary of the properties *)

(** The trace after [k] attempts, numbered from [attempt], that each got an
    answer the loop retries: every attempt is the call [ev] followed by a
    sleep of [2 ^ attempt] seconds plus the value [random.uniform(0, 1)]
    returned at that moment. *)
Fixpoint backoff_trace (ev : event) (tr : list event) (attempt : Z) (k : nat)
  : list event :=
  match k with
  | O => tr
  | S k' =>
      let tr1 := tr ++ [ev] in
      let wait_time :=
        num_add (num_of_int (2 ^ attempt)) (random_uniform_0_1 tr1) in
      backoff_trace ev (tr1 ++ [EvSleep wait_time]) (attempt + 1) k'
  end.

Definition rate_limited {A} (r : outcome A) : Prop :=
  exists e, r = Raise e /\ is_rate_limit e = true.

(** What the design document asks of a call [run] that talks to a provider
    through [respond], recording [ev], with a budget of [max_retries]
    attempts.  Attempt [k] (counted from 0) is reached after [k] rate-limit
    answers, each followed by its back-off sleep.  Then: a result is
    returned; any other error is re-raised as it is; and a rate-limit
    answer to the last attempt of the budget raises [rate_limit_exceeded].
    In all three cases the call [ev] of attempt [k] is the last event. *)
Definition retries_with_backoff {A} (run : M (option A)) (ev : event)
    (respond : list event -> outcome A) (max_retries : Z) : Prop :=
  forall (w : world) (k : nat),
    (k < Z.to_nat max_retries)%nat ->
    (forall i, (i < k)%nat ->
               rate_limited (respond (backoff_trace ev (trace w) 0 i))) ->
    let tr := backoff_trace ev (trace w) 0 k in
    let w' := World (db w) (tr ++ [ev]) in
    (forall v, respond tr = Ok v -> run w = (Ok (Some v), w'))
    /\ (forall e, respond tr = Raise e -> is_rate_limit e = false ->
                  run w = (Raise e, w'))
    /\ (forall e, respond tr = Raise e -> is_rate_limit e = true ->
                  k = (Z.to_nat max_retries - 1)%nat ->
                  run w = (Raise rate_limit_exceeded, w')).

(** Number of calls to the generative model recorded in a trace. *)
Definition is_generate (ev : event) : bool :=
  match ev with EvGenerate _ _ => true | _ => false end.

Definition generate_calls (tr : list event) : nat :=
  length (filter is_generate tr).

(** The node written for a chunk paired with an embedding. *)
Definition node_of (c : chunk) (e : option (list num)) : node :=
  Node (chunk_id_of c) (chunk_text c) (chunk_source c) (chunk_index_of c) e
       (str_of_dict (chunk_metadata c)).

(** Storing under one id several times in a row: each write gives the
    chunk's other fields and its embedding. *)
Fixpoint replay (chunk_id : pystr) (writes : list (chunk * option (list num)))
  : M pyval :=
  match writes with
  | [] => ret PyNone
  | (c, e) :: rest =>
      _ <- store_chunk chunk_id (chunk_text c) e (chunk_source c)
                       (chunk_index_of c) (chunk_metadata c) ;;
      replay chunk_id rest
  end.

(** A stored vector that the query vector covers: it is present and no
    longer than the query vector (as when both have the configured
    dimensionality). *)
Definition covered_by (q : list num) (c : node) : Prop :=
  exists e, embedding c = Some e /\ (length e <= length q)%nat.

Definition hit_of (c : node) (v : num) : hit :=
  Hit (id c) (text c) (source c) (chunk_index c) v.


(** The label of a context block: rank, source name and position. *)
Definition context_label (rank : Z) (source_name : pystr) (position : Z) : pystr :=
  lit "[Context " ++ of_int rank ++ lit " - Source: " ++ source_name
    ++ lit ", Chunk " ++ of_int position ++ lit "]".

(** One block per result, in ranking order, ranks counted from [rank]:
    the label on a line, then the raw text on the next. *)
Fixpoint labeled_blocks (rank : Z) (results : list hit) : list pystr :=
  match results with
  | [] => []
  | r :: rest =>
      (context_label rank (hit_source r) (hit_chunk_index r) ++ nl
         ++ hit_text r ++ nl)
        :: labeled_blocks (rank + 1) rest
  end.

(** The stripped text of an element of the fallback extraction. *)
Definition element_stripped (el : element) : pystr :=
  match element_text el with Some t => strip t | None => [] end.

(** The effect of one iteration of the batch loop on the stored nodes. *)
Definition write_pair (nodes : list node) (p : chunk * option (list num))
  : list node :=
  merge_set (node_of (fst p) (snd p)) nodes.



Definition row_hit (r : row) (h : hit) : Prop :=
  exists v, snd r = Some v /\ h = hit_of (fst r) v.

(** * Properties *)

Lemma pystr_eqb_eq a b : PyStr.eqb a b = true <-> a = b.
Proof.
  revert b; induction a as [|x a IH]; intros [|y b]; simpl; split;
    try congruence; try reflexivity.
  - intros H. apply andb_true_iff in H as [H1 H2].
    apply N.eqb_eq in H1. apply IH in H2. congruence.
  - intros H. injection H as -> ->. rewrite N.eqb_refl. now apply IH.
Qed.

Lemma pystr_eqb_refl a : PyStr.eqb a a = true.
Proof. now apply pystr_eqb_eq. Qed.

Example of_int_42 : of_int 42 = lit "42".
Proof. reflexivity. Qed.
Example of_int_0 : of_int 0 = lit "0".
Proof. reflexivity. Qed.
Example of_int_neg : of_int (-7) = lit "-7".
Proof. reflexivity. Qed.
Example strip_ex : strip (lit "  ab c ") = lit "ab c".
Proof. reflexivity. Qed.
Example split_ex :
  split_blank_lines (10 :: 10 :: 10 :: lit "b")%N = [ []; 10%N :: lit "b" ].
Proof. reflexivity. Qed.
Example contains_ex : contains (lit "429") (lit "HTTP 429 Too Many") = true.
Proof. reflexivity. Qed.

(** ** The retry loop *)

Lemma backoff_trace_length ev tr a k :
  length (backoff_trace ev tr a k) = (length tr + 2 * k)%nat.
Proof.
  revert tr a; induction k as [|k IH]; intros tr a; simpl.
  - lia.
  - rewrite IH, !length_app; simpl; lia.
Qed.

Section RetryLoop.

Context {A : Type} (ev : event) (respond : list event -> outcome A).
Variable max_retries : Z.

Let call : M A := upstream ev respond.

Lemma retry_backoff_steps (k : nat) :
  forall (a r : nat) (w : world),
    Z.of_nat (a + k) <= max_retries - 1 ->
    (forall i, (i < k)%nat ->
       rate_limited (respond (backoff_trace ev (trace w) (Z.of_nat a) i))) ->
    retry_loop call max_retries (map Z.of_nat (seq a (k + r))) w
    = retry_loop call max_retries (map Z.of_nat (seq (a + k) r))
        (World (db w) (backoff_trace ev (trace w) (Z.of_nat a) k)).
Proof.
  induction k as [|k IH]; intros a r w Hle Hrl.
  - simpl. rewrite Nat.add_0_r. now destruct w.
  - simpl. unfold call at 1, upstream.
    destruct (Hrl 0%nat ltac:(lia)) as (e & He & Hr). simpl in He.
    rewrite He, Hr.
    replace (Z.of_nat a <? max_retries - 1) with true
      by (symmetry; apply Z.ltb_lt; lia).
    cbn [db trace].
    rewrite (IH (S a) r); cbn [db trace].
    + replace (Z.of_nat (S a)) with (Z.of_nat a + 1) by lia.
      now replace (S a + k)%nat with (a + S k)%nat by lia.
    + lia.
    + intros i Hi. specialize (Hrl (S i) ltac:(lia)). simpl in Hrl.
      now replace (Z.of_nat (S a)) with (Z.of_nat a + 1) by lia.
Qed.

Lemma retry_loop_policy :
  retries_with_backoff
    (retry_loop call max_retries (py_range max_retries)) ev respond max_retries.
Proof.
  intros w k Hk Hrl tr w'. unfold py_range.
  set (n := Z.to_nat max_retries) in *.
  assert (Hn : Z.of_nat n = max_retries) by (subst n; lia).
  replace n with (k + S (n - k - 1))%nat by lia.
  rewrite (retry_backoff_steps k 0 (S (n - k - 1)) w); [| lia | exact Hrl].
  subst tr w'. rewrite Nat.add_0_l.
  cbn [seq map retry_loop]. unfold call at 1 3 5, upstream. cbn [db trace].
  change (Z.of_nat 0) with 0.
  repeat split.
  - intros v Hv. now rewrite Hv.
  - intros e He Hf. now rewrite He, Hf.
  - intros e He Ht Hlast. rewrite He, Ht.
    replace (Z.of_nat k <? max_retries - 1) with false; [reflexivity|].
    symmetry; apply Z.ltb_ge; lia.
Qed.

End RetryLoop.


(** ** The query path *)

Lemma generate_calls_app tr1 tr2 :
  generate_calls (tr1 ++ tr2) = (generate_calls tr1 + generate_calls tr2)%nat.
Proof. unfold generate_calls. now rewrite filter_app, length_app. Qed.

(** A retry loop around a call that is not a generation call leaves the
    number of generation calls and the database as they were. *)
Lemma retry_loop_quiet {A} (ev : event) (respond : list event -> outcome A)
    (m : Z) (attempts : list Z) :
  is_generate ev = false ->
  forall w r w',
    retry_loop (upstream ev respond) m attempts w = (r, w') ->
    generate_calls (trace w') = generate_calls (trace w) /\ db w' = db w.
Proof.
  intros Hev. induction attempts as [|a rest IH]; intros w r w' H; simpl in H.
  - now inversion H.
  - unfold upstream at 1 in H.
    assert (Hone : generate_calls (trace w ++ [ev]) = generate_calls (trace w)).
    { rewrite generate_calls_app. unfold generate_calls at 2. simpl.
      rewrite Hev. simpl. lia. }
    destruct (respond (trace w)) as [v|e].
    + inversion H; subst; simpl. now split.
    + destruct (is_rate_limit e).
      * destruct (a <? m - 1).
        -- apply IH in H. cbn [db trace] in H. destruct H as [H1 H2].
           split; [|exact H2]. rewrite H1, generate_calls_app, Hone.
           unfold generate_calls at 2. simpl. lia.
        -- inversion H; subst; simpl. now split.
      * inversion H; subst; simpl. now split.
Qed.

(** C2.  When the similarity search of a query returns no result, [query]
    returns the fixed fallback answer with an empty source list, and the
    generative model has not been called: the trace holds as many
    generation calls after the query as before it. *)
Theorem query_without_results_skips_generation :
  forall (self : RAGOrchestrator) (question : pystr) (top_k : option Z)
         (w w1 : world) (query_embedding : option (list num)),
    generate_query_embedding (embedding_generator self) question w
      = (Ok query_embedding, w1) ->
    fst (search_similar query_embedding
           (match top_k with None => top_k_results (config self) | Some k => k end)
           w1) = Ok [] ->
    query self question top_k w
      = (Ok {| question_of := question;
               answer := Some no_information_answer;
               sources := [] |}, w1)
    /\ generate_calls (trace w1) = generate_calls (trace w).
Proof.
  intros self question top_k w w1 qe Hemb Hsearch. split.
  - unfold query, bind. rewrite Hemb.
    unfold search_similar in *.
    destruct (_ <? 0); simpl in Hsearch; [discriminate|].
    now rewrite Hsearch.
  - unfold generate_query_embedding, EmbeddingGenerator_generate, embed_call in Hemb.
    now apply retry_loop_quiet in Hemb as [H _].
Qed.

(** ** The store *)

Lemma has_id_true i c : has_id i c = true <-> id c = i.
Proof. apply pystr_eqb_eq. Qed.

Lemma has_id_false i c : has_id i c = false <-> id c <> i.
Proof.
  rewrite <- has_id_true. destruct (has_id i c); split; congruence.
Qed.

Lemma has_source_true s c : has_source s c = true <-> source c = s.
Proof. apply pystr_eqb_eq. Qed.

Lemma existsb_has_id i l : existsb (has_id i) l = true <-> In i (map id l).
Proof.
  rewrite existsb_exists, in_map_iff. split.
  - intros (c & Hin & H). exists c. now apply has_id_true in H.
  - intros (c & H & Hin). exists c. now apply has_id_true in H.
Qed.

Lemma absent_id_filter i l :
  ~ In i (map id l) -> filter (has_id i) l = [].
Proof.
  induction l as [|c l IH]; simpl; intros H; [reflexivity|].
  destruct (has_id i c) eqn:E.
  - apply has_id_true in E. exfalso. apply H. now left.
  - apply IH. intros Hin. apply H. now right.
Qed.

Lemma absent_id_replace i p l :
  ~ In i (map id l) -> map (fun c => if has_id i c then p else c) l = l.
Proof.
  induction l as [|c l IH]; simpl; intros H; [reflexivity|].
  destruct (has_id i c) eqn:E.
  - apply has_id_true in E. exfalso. apply H. now left.
  - f_equal. apply IH. intros Hin. apply H. now right.
Qed.

Lemma merge_set_ids p l :
  map id (merge_set p l)
  = if existsb (has_id (id p)) l then map id l else map id l ++ [id p].
Proof.
  unfold merge_set. destruct (existsb _ l).
  - rewrite map_map. apply map_ext_in. intros c _.
    destruct (has_id (id p) c) eqn:E; [|reflexivity].
    now apply has_id_true in E.
  - now rewrite map_app.
Qed.

(** The uniqueness constraint on [id] is kept by every write. *)
Lemma merge_set_NoDup p l : NoDup (map id l) -> NoDup (map id (merge_set p l)).
Proof.
  intros H. rewrite merge_set_ids. destruct (existsb _ l) eqn:E; [exact H|].
  apply NoDup_app; [exact H | repeat constructor; intros [] |].
  intros i Hi [<-|[]]. apply existsb_has_id in Hi. congruence.
Qed.

Lemma merge_set_same p l :
  NoDup (map id l) -> filter (has_id (id p)) (merge_set p l) = [p].
Proof.
  intros H. unfold merge_set. destruct (existsb _ l) eqn:E.
  - apply existsb_has_id in E. induction l as [|c l IH]; [destruct E|].
    simpl in H. inversion H as [|? ? Hnin Hnd]; subst. simpl.
    destruct (has_id (id p) c) eqn:Ec.
    + simpl. rewrite (proj2 (has_id_true (id p) p) eq_refl).
      apply has_id_true in Ec. rewrite Ec in Hnin.
      rewrite absent_id_replace by exact Hnin.
      now rewrite absent_id_filter.
    + simpl. rewrite Ec. apply IH; [exact Hnd|].
      destruct E as [E|E]; [|exact E]. apply has_id_false in Ec. congruence.
  - rewrite filter_app. simpl.
    rewrite (proj2 (has_id_true (id p) p) eq_refl).
    rewrite absent_id_filter; [reflexivity|].
    intros Hin. apply existsb_has_id in Hin. congruence.
Qed.

Lemma merge_set_others p l :
  filter (fun c => negb (has_id (id p) c)) (merge_set p l)
  = filter (fun c => negb (has_id (id p) c)) l.
Proof.
  unfold merge_set. destruct (existsb _ l).
  - induction l as [|c l IH]; simpl; [reflexivity|].
    destruct (has_id (id p) c) eqn:Ec; simpl.
    + rewrite (proj2 (has_id_true (id p) p) eq_refl). simpl. exact IH.
    + rewrite Ec. simpl. now rewrite IH.
  - rewrite filter_app. simpl.
    rewrite (proj2 (has_id_true (id p) p) eq_refl). simpl.
    now rewrite app_nil_r.
Qed.

Lemma merge_set_length p l :
  existsb (has_id (id p)) l = true -> length (merge_set p l) = length l.
Proof. intros H. unfold merge_set. rewrite H. apply length_map. Qed.

Lemma merge_set_In p l : In p (merge_set p l).
Proof.
  unfold merge_set. destruct (existsb _ l) eqn:E.
  - apply existsb_exists in E as (c & Hin & Hc).
    apply in_map_iff. exists c. now rewrite Hc.
  - apply in_or_app. right. now left.
Qed.

Lemma merge_set_keeps p q l :
  In q l -> id q <> id p -> In q (merge_set p l).
Proof.
  intros Hin Hne. unfold merge_set. destruct (existsb _ l).
  - apply in_map_iff. exists q. split; [|exact Hin].
    now rewrite (proj2 (has_id_false (id p) q) Hne).
  - apply in_or_app. now left.
Qed.

Lemma replay_cons chunk_id c e rest w :
  replay chunk_id ((c, e) :: rest) w
  = replay chunk_id rest
      (World (merge_set (Node chunk_id (chunk_text c) (chunk_source c)
                              (chunk_index_of c) e
                              (str_of_dict (chunk_metadata c))) (db w))
             (trace w)).
Proof. reflexivity. Qed.

(** C7.  Writing a chunk under an id overwrites: in a store that respects
    the uniqueness constraint on [id], after one or more writes under the
    same id exactly one record has that id, its fields are those of the
    last write, every other record is as before, and when the id was
    already present the store has not grown. *)
Theorem upsert_keeps_one_record_with_latest_fields :
  forall (chunk_id : pystr) (earlier : list (chunk * option (list num)))
         (c : chunk) (e : option (list num)) (w : world),
    NoDup (map id (db w)) ->
    let run := replay chunk_id (earlier ++ [(c, e)]) w in
    let latest := Node chunk_id (chunk_text c) (chunk_source c)
                       (chunk_index_of c) e (str_of_dict (chunk_metadata c)) in
    fst run = Ok PyNone
    /\ filter (has_id chunk_id) (db (snd run)) = [latest]
    /\ filter (fun n => negb (has_id chunk_id n)) (db (snd run))
       = filter (fun n => negb (has_id chunk_id n)) (db w)
    /\ NoDup (map id (db (snd run)))
    /\ (In chunk_id (map id (db w)) -> length (db (snd run)) = length (db w)).
Proof.
  intros chunk_id earlier c e. induction earlier as [|[c0 e0] rest IH]; intros w Hnd.
  - cbn zeta. rewrite app_nil_l, replay_cons. cbn [replay ret fst snd db].
    set (latest := Node chunk_id _ _ _ _ _).
    change chunk_id with (id latest).
    split; [reflexivity|]. split; [now apply merge_set_same|].
    split; [apply merge_set_others|]. split; [now apply merge_set_NoDup|].
    intros Hin. apply merge_set_length. now apply existsb_has_id.
  - cbn zeta. rewrite <- app_comm_cons, replay_cons.
    set (first := Node chunk_id (chunk_text c0) _ _ _ _).
    set (w1 := World (merge_set first (db w)) (trace w)).
    assert (Hnd1 : NoDup (map id (db w1))) by now apply merge_set_NoDup.
    destruct (IH w1 Hnd1) as (H1 & H2 & H3 & H4 & H5).
    split; [exact H1|]. split; [exact H2|].
    split.
    { rewrite H3. cbn [db w1]. change chunk_id with (id first).
      apply merge_set_others. }
    split; [exact H4|].
    intros Hin. rewrite H5.
    + cbn [db w1]. apply merge_set_length.
      change (id first) with chunk_id. now apply existsb_has_id.
    + cbn [db w1]. rewrite merge_set_ids. change (id first) with chunk_id.
      now rewrite (proj2 (existsb_has_id chunk_id (db w)) Hin).
Qed.

(** C3, as the code has it.  [delete_by_source] removes exactly the chunks
    of that source and returns [None]; the number of chunks removed is
    only printed.  Deleting a source that no chunk has is not an error: the
    printed number is 0 and the stored chunks are unchanged. *)
Theorem delete_by_source_prints_count_returns_none :
  forall (s : pystr) (w : world),
    let run := delete_by_source s w in
    let removed := (length (db w) - length (db (snd run)))%nat in
    fst run = Ok PyNone
    /\ db (snd run) = filter (fun c => negb (has_source s c)) (db w)
    /\ removed = length (filter (has_source s) (db w))
    /\ trace (snd run)
       = trace w ++ [EvPrint (deleted_line (Z.of_nat removed) s)]
    /\ (~ In s (map source (db w)) -> removed = 0%nat /\ db (snd run) = db w).
Proof.
  intros s w. cbn zeta. unfold delete_by_source. cbn [fst snd db trace].
  assert (Hlen : forall l : list node,
             (length l - length (filter (fun c => negb (has_source s c)) l))%nat
             = length (filter (has_source s) l)).
  { intros l.
    pose proof (filter_length (has_source s) l) as H.
    pose proof (filter_length_le (fun c => negb (has_source s c)) l).
    lia. }
  split; [reflexivity|]. split; [reflexivity|]. split; [apply Hlen|].
  split; [now rewrite Hlen|].
  intros Hnone.
  assert (Hid : filter (fun c => negb (has_source s c)) (db w) = db w).
  { induction (db w) as [|c l IH]; simpl; [reflexivity|].
    simpl in Hnone. destruct (has_source s c) eqn:E.
    - apply has_source_true in E. exfalso. apply Hnone. now left.
    - simpl. f_equal. apply IH. intros Hin. apply Hnone. now right. }
  rewrite Hid. split; [lia | reflexivity].
Qed.

(** ** The batch write *)

Lemma store_each_run pairs :
  forall w,
    store_each pairs w
    = (Ok PyNone, World (fold_left write_pair pairs (db w)) (trace w)).
Proof.
  induction pairs as [|[c e] rest IH]; intros w.
  - now destruct w.
  - cbn [store_each]. unfold bind, store_chunk. rewrite IH. reflexivity.
Qed.

Lemma combine_cut_left {X Y} (xs : list X) (ys : list Y) :
  combine (firstn (length ys) xs) ys = combine xs ys.
Proof.
  revert ys; induction xs as [|x xs IH]; intros [|y ys]; simpl;
    try reflexivity.
  now rewrite IH.
Qed.

Lemma batch_keeps (chunks : list chunk) :
  forall (embeddings : list (option (list num))) (nodes : list node) (q : node),
    In q nodes ->
    (forall j c', (j < length embeddings)%nat -> nth_error chunks j = Some c' ->
                  chunk_id_of c' <> id q) ->
    In q (fold_left write_pair (combine chunks embeddings) nodes).
Proof.
  induction chunks as [|c0 cs IH]; intros [|e0 es] nodes q Hin Hne;
    simpl; try exact Hin.
  apply IH.
  - apply merge_set_keeps; [exact Hin|].
    intros Heq. apply (Hne 0%nat c0); simpl; [lia | reflexivity | now symmetry].
  - intros j c' Hj Hnth. apply (Hne (S j) c'); simpl; [lia | exact Hnth].
Qed.

Lemma batch_stores_by_position (chunks : list chunk) :
  forall (embeddings : list (option (list num))) (nodes : list node)
         (i : nat) (c : chunk) (e : option (list num)),
    nth_error chunks i = Some c ->
    nth_error embeddings i = Some e ->
    (forall j c', (i < j < length embeddings)%nat -> nth_error chunks j = Some c' ->
                  chunk_id_of c' <> chunk_id_of c) ->
    In (node_of c e) (fold_left write_pair (combine chunks embeddings) nodes).
Proof.
  induction chunks as [|c0 cs IH]; intros [|e0 es] nodes i c e Hc He Hne;
    try (destruct i; discriminate).
  destruct i as [|i]; simpl in Hc, He |- *.
  - injection Hc as ->. injection He as ->.
    apply batch_keeps; [apply merge_set_In|].
    intros j c' Hj Hnth. apply (Hne (S j) c'); simpl; [lia | exact Hnth].
  - apply (IH es _ i c e Hc He).
    intros j c' Hj Hnth. apply (Hne (S j) c'); simpl; [lia | exact Hnth].
Qed.

Lemma batch_ids (pairs : list (chunk * option (list num))) :
  forall (nodes : list node) (i : pystr),
    In i (map id (fold_left write_pair pairs nodes)) ->
    In i (map id nodes) \/ In i (map (fun p => chunk_id_of (fst p)) pairs).
Proof.
  induction pairs as [|p rest IH]; intros nodes i H; simpl in *; [now left|].
  apply IH in H as [H|H]; [|now right; right].
  unfold write_pair in H. rewrite merge_set_ids in H.
  destruct (existsb _ nodes); [now left|].
  apply in_app_or in H as [H|[H|[]]]; [now left|].
  right; left. exact H.
Qed.

(** C10.  The batch write pairs chunks and embeddings by position and stops
    at the shorter list.  With fewer embeddings than chunks it raises
    nothing and returns normally; its effect is that of the call without
    the surplus chunks; the chunk at each position below the number of
    embeddings is stored with the embedding at that position (unless a
    later pair rewrites its id); and a surplus chunk whose id is new is not
    in the store afterwards. *)
Theorem store_chunks_batch_skips_surplus_chunks :
  forall (chunks : list chunk) (embeddings : list (option (list num)))
         (w : world),
    (length embeddings < length chunks)%nat ->
    let run := store_chunks_batch chunks embeddings w in
    let stored := firstn (length embeddings) chunks in
    let surplus := skipn (length embeddings) chunks in
    fst run = Ok PyNone
    /\ run = store_chunks_batch stored embeddings w
    /\ (forall i c e,
          nth_error chunks i = Some c ->
          nth_error embeddings i = Some e ->
          (forall j c', (i < j < length embeddings)%nat ->
                        nth_error chunks j = Some c' ->
                        chunk_id_of c' <> chunk_id_of c) ->
          In (node_of c e) (db (snd run)))
    /\ (forall c,
          In c surplus ->
          ~ In (chunk_id_of c) (map id (db w)) ->
          ~ In (chunk_id_of c) (map chunk_id_of stored) ->
          ~ In (chunk_id_of c) (map id (db (snd run)))).
Proof.
  intros chunks embeddings w Hlt. cbn zeta. unfold store_chunks_batch.
  rewrite combine_cut_left, store_each_run. cbn [fst snd db].
  split; [reflexivity|]. split; [reflexivity|]. split.
  - intros i c e Hc He Hne. now apply batch_stores_by_position with (i := i).
  - intros c _ Hdb Hstored Hin.
    apply batch_ids in Hin as [Hin|Hin]; [now apply Hdb|].
    apply Hstored.
    rewrite <- (combine_cut_left chunks embeddings) in Hin.
    apply in_map_iff in Hin as ([c' e'] & Heq & Hp). simpl in Heq.
    apply in_combine_l in Hp. rewrite <- Heq. now apply in_map.
Qed.

(** ** Similarity search *)

Lemma in_firstn {X} (n : nat) (l : list X) (x : X) :
  In x (firstn n l) -> In x l.
Proof.
  intros H. rewrite <- (firstn_skipn n l). apply in_or_app. now left.
Qed.

Lemma insert_desc_perm r l : Permutation (insert_desc r l) (r :: l).
Proof.
  induction l as [|h t IH]; simpl; [reflexivity|].
  destruct (desc_before (snd r) (snd h)); [reflexivity|].
  rewrite IH. apply perm_swap.
Qed.

Lemma order_by_similarity_desc_perm rows :
  Permutation (order_by_similarity_desc rows) rows.
Proof.
  induction rows as [|r rest IH]; simpl; [reflexivity|].
  rewrite insert_desc_perm. now constructor.
Qed.

Lemma dot_product_defined (e q : list num) :
  forall (idx : list nat) (acc : num),
    (forall i, In i idx -> (i < length e)%nat /\ (i < length q)%nat) ->
    exists v,
      fold_left
        (fun dot i => cy_add dot (cy_mul (cy_index (Some e) i) (cy_index (Some q) i)))
        idx (Some acc) = Some v.
Proof.
  induction idx as [|i idx IH]; intros acc H; simpl; [now exists acc|].
  destruct (H i (or_introl eq_refl)) as [He Hq].
  apply nth_error_Some in He, Hq.
  destruct (nth_error e i) as [a|]; [|congruence].
  destruct (nth_error q i) as [b|]; [|congruence].
  simpl. apply IH. intros j Hj. apply H. now right.
Qed.

Lemma similarity_defined (q : list num) (c : node) :
  covered_by q c -> exists v, similarity c (Some q) = Some v.
Proof.
  intros (e & He & Hle). unfold similarity. rewrite He.
  apply dot_product_defined. intros i Hi. apply in_seq in Hi. lia.
Qed.

Lemma records_to_chunks_defined (records : list row) :
  Forall (fun r => exists v, snd r = Some v) records ->
  forall chunks,
    exists more,
      records_to_chunks records chunks = Ok (chunks ++ more)
      /\ Forall2 (fun r h => exists v, snd r = Some v /\ h = hit_of (fst r) v)
                 records more.
Proof.
  induction 1 as [|[c s] rest (v & Hv) _ IH]; intros chunks; simpl.
  - exists []. now rewrite app_nil_r.
  - simpl in Hv. subst s.
    destruct (IH (chunks ++ [hit_of c v])) as (more & Hrun & Hall).
    exists (hit_of c v :: more). split.
    + unfold hit_of in *. rewrite Hrun. now rewrite <- app_assoc.
    + constructor; [|exact Hall]. now exists v.
Qed.

Lemma run_search_query_rows nodes q k :
  (forall l, Permutation (scan l) l) ->
  Forall (covered_by q) nodes ->
  Forall (fun r : row => exists v, snd r = Some v)
         (run_search_query nodes (Some q) k)
  /\ length (run_search_query nodes (Some q) k)
     = Nat.min (Z.to_nat k) (length nodes).
Proof.
  intros Hscan Hcov. unfold run_search_query. split.
  - apply Forall_forall. intros r Hr. apply in_firstn in Hr.
    apply (Permutation_in _ (order_by_similarity_desc_perm _)) in Hr.
    apply in_map_iff in Hr as (c & <- & Hc). simpl.
    apply similarity_defined.
    apply (Permutation_in _ (Hscan nodes)) in Hc.
    revert c Hc. now apply Forall_forall.
  - rewrite length_firstn.
    rewrite (Permutation_length (order_by_similarity_desc_perm _)).
    now rewrite length_map, (Permutation_length (Hscan nodes)).
Qed.

(** C5, as the code has it.  For a store in which every vector is present
    and no longer than the query vector, and [k >= 1], the search raises
    nothing and returns [min(k, count)] results, where [count] is what
    [get_chunk_count] reports; for the empty store the result is the empty
    list.  (Nothing in the code checks the length of a vector when it is
    stored; a longer stored vector makes the search raise.) *)
Theorem search_similar_returns_min_k_count :
  forall (q : list num) (k : Z) (w : world),
    (forall l, Permutation (scan l) l) ->
    Forall (covered_by q) (db w) ->
    1 <= k ->
    exists (hits : list hit) (count : Z),
      search_similar (Some q) k w = (Ok hits, w)
      /\ get_chunk_count w = (Ok count, w)
      /\ Z.of_nat (length hits) = Z.min k count
      /\ (db w = [] -> hits = []).
Proof.
  intros q k w Hscan Hcov Hk.
  destruct (run_search_query_rows (db w) q k Hscan Hcov) as [Hsome Hlen].
  destruct (records_to_chunks_defined _ Hsome []) as (hits & Hrun & Hall).
  exists hits, (Z.of_nat (length (db w))).
  unfold search_similar, get_chunk_count.
  replace (k <? 0) with false by (symmetry; apply Z.ltb_ge; lia).
  rewrite Hrun. simpl. split; [reflexivity|]. split; [reflexivity|].
  apply Forall2_length in Hall.
  assert (Hhits : length hits = Nat.min (Z.to_nat k) (length (db w)))
    by (rewrite <- Hall; exact Hlen).
  split; [lia|].
  intros Hempty. rewrite Hempty in Hhits. simpl in Hhits.
  rewrite Nat.min_0_r in Hhits. now destruct hits.
Qed.

(** *** Ranking *)

Section Ranking.

Hypothesis num_geb_total : forall a b, num_geb a b = true \/ num_geb b a = true.
Hypothesis num_geb_trans :
  forall a b c, num_geb a b = true -> num_geb b c = true -> num_geb a c = true.





End Ranking.



Lemma records_to_chunks_inv (records : list row) :
  forall chunks out,
    records_to_chunks records chunks = Ok out ->
    exists more, out = chunks ++ more /\ Forall2 row_hit records more.
Proof.
  induction records as [|[c [v|]] rest IH]; intros chunks out H; simpl in H.
  - injection H as <-. exists []. now rewrite app_nil_r.
  - apply IH in H as (more & -> & Hall).
    exists (hit_of c v :: more). split; [now rewrite <- app_assoc|].
    constructor; [now exists v | exact Hall].
  - discriminate.
Qed.

(** *** Rows with equal scores keep the order of the scan *)











(** ** Context assembly *)

Lemma context_part_label (i : Z) (c : hit) :
  context_part i c
  = context_label i (hit_source c) (hit_chunk_index c) ++ nl ++ hit_text c ++ nl.
Proof.
  unfold context_part, context_label. now rewrite <- !app_assoc.
Qed.

Lemma context_loop_blocks (chunks : list hit) :
  forall i context_parts,
    context_loop i chunks context_parts = context_parts ++ labeled_blocks i chunks.
Proof.
  induction chunks as [|c rest IH]; intros i parts; simpl.
  - now rewrite app_nil_r.
  - now rewrite IH, <- app_assoc, context_part_label.
Qed.

Lemma labeled_blocks_nth (results : list hit) :
  forall rank i r,
    nth_error results i = Some r ->
    nth_error (labeled_blocks rank results) i
    = Some (context_label (rank + Z.of_nat i) (hit_source r) (hit_chunk_index r)
              ++ nl ++ hit_text r ++ nl).
Proof.
  induction results as [|r0 rest IH]; intros rank [|i] r H; simpl in H;
    try discriminate.
  - injection H as ->. simpl. now rewrite Z.add_0_r.
  - simpl nth_error. rewrite (IH (rank + 1) i r H).
    now replace (rank + 1 + Z.of_nat i) with (rank + Z.of_nat (S i)) by lia.
Qed.

Lemma join_first_then_rest (sep p : pystr) (rest : list pystr) :
  join sep (p :: rest) = p ++ concat (map (fun part => sep ++ part) rest).
Proof.
  revert p. induction rest as [|q rest IH]; intros p.
  - cbn [join map concat]. now rewrite app_nil_r.
  - change (join sep (p :: q :: rest)) with (p ++ sep ++ join sep (q :: rest)).
    rewrite IH. cbn [map concat]. now rewrite <- app_assoc.
Qed.

(** C8.  [_build_context] depends on the result list alone.  For the empty
    list it is the fixed sentence.  For a non-empty list it is the block of
    the first result, labeled with rank 1, followed, for each further result
    in ranking order, by a newline and that result's block, the ranks of
    these counted from 2.  Blocks counted from a rank are one per result,
    and the block of the result at position [i] is the label with the rank
    [rank + i], the source name and the position of that result, a newline,
    the raw text and a newline: in the whole context the result at position
    [i] carries the rank [i + 1]. *)
Theorem build_context_labels_results_in_rank_order :
  _build_context [] = lit "No relevant context found."
  /\ (forall (r : hit) (rest : list hit),
        _build_context (r :: rest)
        = (context_label 1 (hit_source r) (hit_chunk_index r)
             ++ nl ++ hit_text r ++ nl)
            ++ concat (map (fun block => nl ++ block) (labeled_blocks 2 rest)))
  /\ (forall (rank : Z) (results : list hit),
        length (labeled_blocks rank results) = length results)
  /\ (forall (rank : Z) (results : list hit) (i : nat) (r : hit),
        nth_error results i = Some r ->
        nth_error (labeled_blocks rank results) i
        = Some (context_label (rank + Z.of_nat i) (hit_source r) (hit_chunk_index r)
                  ++ nl ++ hit_text r ++ nl)).
Proof.
  split; [reflexivity|]. split; [|split].
  - intros r rest. unfold _build_context.
    rewrite context_loop_blocks. cbn [app labeled_blocks].
    now rewrite join_first_then_rest.
  - intros rank results. revert rank.
    induction results as [|r rest IH]; intros rank; simpl; [reflexivity|].
    now rewrite IH.
  - intros rank results i r H.
    exact (labeled_blocks_nth results rank i r H).
Qed.

(** ** Chunk extraction *)

Lemma paragraphs_loop_texts (self : PDFProcessor) (pdf_path : pystr)
    (paragraphs : list pystr) :
  forall chunks chunk_id,
    map chunk_text (fst (paragraphs_loop self pdf_path paragraphs chunks chunk_id))
    = map chunk_text chunks ++ filter (keeps self) (map strip paragraphs).
Proof.
  induction paragraphs as [|para rest IH]; intros chunks chunk_id; simpl.
  - now rewrite app_nil_r.
  - destruct (keeps self (strip para)).
    + rewrite IH, map_app, <- app_assoc. reflexivity.
    + apply IH.
Qed.

Lemma elements_loop_texts (self : PDFProcessor) (pdf_path : pystr)
    (elements : list element) :
  forall chunks chunk_id,
    map chunk_text (fst (elements_loop self pdf_path elements chunks chunk_id))
    = map chunk_text chunks ++ filter (keeps self) (map element_stripped elements).
Proof.
  induction elements as [|el rest IH]; intros chunks chunk_id; simpl.
  - now rewrite app_nil_r.
  - fold (element_stripped el). destruct (keeps self (element_stripped el)).
    + rewrite IH, map_app, <- app_assoc. reflexivity.
    + apply IH.
Qed.

(** C9, as the code has it.  A paragraph becomes a chunk exactly when its
    stripped text is non-empty and strictly longer than the configured
    minimum: the texts of the extracted chunks are, in order, the stripped
    paragraphs that pass this test (and likewise the element texts when
    the markdown export fails).  No extracted chunk is as short as the
    minimum. *)
Theorem extract_chunks_keeps_texts_longer_than_minimum :
  forall (self : PDFProcessor) (pdf_path : pystr) (result : document),
    convert pdf_path = Ok result ->
    exists chunks,
      extract_chunks self pdf_path = Ok chunks
      /\ map chunk_text chunks
         = filter (fun t => truthy t && (len t >? min_chunk_length self))
             (match export_to_markdown result with
              | Ok full_text => map strip (split_blank_lines full_text)
              | Raise _ => map element_stripped (iterate_items result)
              end)
      /\ Forall (fun c => chunk_text c <> [] /\
                          min_chunk_length self < len (chunk_text c)) chunks.
Proof.
  intros self pdf_path result Hconv. unfold extract_chunks. rewrite Hconv.
  assert (Hall : forall chunks texts,
             map chunk_text chunks = filter (keeps self) texts ->
             Forall (fun c => chunk_text c <> [] /\
                              min_chunk_length self < len (chunk_text c)) chunks).
  { intros chunks texts H. apply Forall_forall. intros c Hc.
    apply (in_map chunk_text) in Hc. rewrite H in Hc.
    apply filter_In in Hc as [_ Hk]. unfold keeps in Hk.
    apply andb_true_iff in Hk as [Ht Hl]. apply Z.gtb_lt in Hl.
    split; [|exact Hl]. intros E. now rewrite E in Ht. }
  destruct (export_to_markdown result) as [full_text|e].
  - eexists. split; [reflexivity|].
    pose proof (paragraphs_loop_texts self pdf_path
                  (split_blank_lines full_text) [] 0) as H.
    simpl in H. split; [exact H | exact (Hall _ _ H)].
  - eexists. split; [reflexivity|].
    pose proof (elements_loop_texts self pdf_path (iterate_items result) [] 0) as H.
    simpl in H. split; [exact H | exact (Hall _ _ H)].
Qed.

(** ** Ingestion *)

(** C1 on the code.  Whenever extraction gives a non-empty chunk list and
    every embedding is produced, [process_and_store_pdf] writes the chunks
    and then raises [NameError]: the success dictionary with its statistics
    is never returned. *)
Theorem process_and_store_pdf_raises_name_error :
  forall (self : RAGOrchestrator) (pdf_path : pystr) (w w1 : world)
         (chunks : list chunk) (embeddings : list (option (list num))),
    extract_chunks (pdf_processor self) pdf_path = Ok chunks ->
    chunks <> [] ->
    embed_loop self chunks [] w = (Ok embeddings, w1) ->
    process_and_store_pdf self pdf_path w
    = (Raise name_error_stats, snd (store_chunks_batch chunks embeddings w1)).
Proof.
  intros self pdf_path w w1 chunks embeddings Hext Hne Hemb.
  unfold process_and_store_pdf. rewrite Hext.
  destruct chunks as [|c cs]; [congruence|].
  unfold bind. rewrite Hemb.
  unfold store_chunks_batch. now rewrite store_each_run.
Qed.

(** No run of [process_and_store_pdf] returns a success dictionary. *)
Lemma process_and_store_pdf_never_reports_success :
  forall (self : RAGOrchestrator) (pdf_path : pystr) (w w' : world)
         (report : ingest_report),
    process_and_store_pdf self pdf_path w = (Ok report, w') ->
    success report = false /\ statistics report = None.
Proof.
  intros self pdf_path w w' report H. unfold process_and_store_pdf in H.
  destruct (extract_chunks _ _) as [[|c cs]|e]; try discriminate.
  - injection H as <- _. now split.
  - unfold bind in H.
    destruct (embed_loop _ _ _ _) as [[embeddings|e] w1]; [|discriminate].
    unfold store_chunks_batch in H. rewrite store_each_run in H. discriminate.
Qed.

(** * Further properties *)

(** ** The retry budget *)

Definition is_embed (ev : event) : bool :=
  match ev with EvEmbed _ _ _ => true | _ => false end.

Definition is_sleep (ev : event) : bool :=
  match ev with EvSleep _ => true | _ => false end.

Definition count_events (p : event -> bool) (tr : list event) : nat :=
  length (filter p tr).

Lemma count_events_app p tr1 tr2 :
  count_events p (tr1 ++ tr2) = (count_events p tr1 + count_events p tr2)%nat.
Proof. unfold count_events. now rewrite filter_app, length_app. Qed.

Lemma count_events_one p tr ev :
  count_events p (tr ++ [ev])
  = (count_events p tr + if p ev then 1 else 0)%nat.
Proof.
  rewrite count_events_app. unfold count_events at 2. simpl.
  now destruct (p ev).
Qed.

(** A loop over the attempts [a], ..., [max_retries - 1] adds at most one
    call per attempt and at most one sleep per attempt but the last, and
    does not touch the database. *)
Lemma retry_loop_budget {A} (ev : event) (respond : list event -> outcome A)
    (m : Z) (p : event -> bool) :
  p ev = true -> (forall s, p (EvSleep s) = false) -> is_sleep ev = false ->
  forall (n a : nat) (w w' : world) (r : outcome (option A)),
    Z.of_nat (a + n) = m ->
    retry_loop (upstream ev respond) m (map Z.of_nat (seq a n)) w = (r, w') ->
    (count_events p (trace w') <= count_events p (trace w) + n)%nat
    /\ (count_events is_sleep (trace w')
        <= count_events is_sleep (trace w) + (n - 1))%nat
    /\ db w' = db w.
Proof.
  intros Hp Hps Hs. induction n as [|n IH]; intros a w w' r Ham H; simpl in H.
  - injection H as _ <-. repeat split; lia.
  - unfold upstream at 1 in H.
    assert (Hc : count_events p (trace w ++ [ev]) = S (count_events p (trace w)))
      by (rewrite count_events_one, Hp; lia).
    assert (Hz : count_events is_sleep (trace w ++ [ev])
                 = count_events is_sleep (trace w))
      by (rewrite count_events_one, Hs; lia).
    destruct (respond (trace w)) as [v|e].
    + injection H as _ <-. cbn [db trace]. rewrite Hc, Hz.
      repeat split; lia.
    + destruct (is_rate_limit e).
      * destruct (Z.of_nat a <? m - 1) eqn:Ea.
        -- apply Z.ltb_lt in Ea.
           apply (IH (S a)) in H; [|lia]. cbn [db trace] in H.
           destruct H as (H1 & H2 & H3).
           rewrite !count_events_one, Hps, Hp in H1.
           rewrite !count_events_one, Hs in H2. cbn [is_sleep] in H2.
           repeat split; [lia | lia | exact H3].
        -- injection H as _ <-. cbn [db trace]. rewrite Hc, Hz.
           repeat split; lia.
      * injection H as _ <-. cbn [db trace]. rewrite Hc, Hz.
        repeat split; lia.
Qed.

(** X1.  Whatever the providers answer, an embedding call and a generation call
    stay within the budget: at most [max_retries] calls to the provider, at
    most [max_retries - 1] sleeps, and no change to the database. *)
Theorem generate_stays_within_budget :
  (forall (self : EmbeddingGenerator) (text task_type : pystr) (w : world),
      let run := EmbeddingGenerator_generate self text task_type w in
      (count_events is_embed (trace (snd run))
       <= count_events is_embed (trace w) + Z.to_nat (eg_max_retries self))%nat
      /\ (count_events is_sleep (trace (snd run))
          <= count_events is_sleep (trace w)
             + (Z.to_nat (eg_max_retries self) - 1))%nat
      /\ db (snd run) = db w)
  /\
  (forall (self : ResponseGenerator) (query : pystr) (context_chunks : list hit)
          (w : world),
      let run := ResponseGenerator_generate self query context_chunks w in
      (count_events is_generate (trace (snd run))
       <= count_events is_generate (trace w) + Z.to_nat (rg_max_retries self))%nat
      /\ (count_events is_sleep (trace (snd run))
          <= count_events is_sleep (trace w)
             + (Z.to_nat (rg_max_retries self) - 1))%nat
      /\ db (snd run) = db w).
Proof.
  assert (Hgen : forall {A} ev (respond : list event -> outcome A) m p w,
             p ev = true -> (forall s, p (EvSleep s) = false) ->
             is_sleep ev = false ->
             let run := retry_loop (upstream ev respond) m (py_range m) w in
             (count_events p (trace (snd run))
              <= count_events p (trace w) + Z.to_nat m)%nat
             /\ (count_events is_sleep (trace (snd run))
                 <= count_events is_sleep (trace w) + (Z.to_nat m - 1))%nat
             /\ db (snd run) = db w).
  { intros A ev respond m p w Hp Hps Hs run. subst run. unfold py_range.
    destruct (Z.to_nat m) as [|n] eqn:En.
    - simpl. repeat split; lia.
    - destruct (retry_loop _ m _ w) as [r w'] eqn:Er.
      apply (retry_loop_budget ev respond m p Hp Hps Hs (S n) 0 w w' r);
        [lia | exact Er]. }
  split.
  - intros self text task_type w.
    unfold EmbeddingGenerator_generate, embed_call. now apply Hgen.
  - intros self query context_chunks w.
    unfold ResponseGenerator_generate, generate_call. now apply Hgen.
Qed.

(** X2.  With a budget of zero (or less) neither call reaches its provider: the
    loop body never runs and the method returns [None]. *)
Theorem generate_without_budget_returns_none :
  (forall (self : EmbeddingGenerator) (text task_type : pystr) (w : world),
      eg_max_retries self <= 0 ->
      EmbeddingGenerator_generate self text task_type w = (Ok None, w))
  /\
  (forall (self : ResponseGenerator) (query : pystr) (context_chunks : list hit)
          (w : world),
      rg_max_retries self <= 0 ->
      ResponseGenerator_generate self query context_chunks w = (Ok None, w)).
Proof.
  split; intros self; intros;
    unfold EmbeddingGenerator_generate, ResponseGenerator_generate, py_range;
    (replace (Z.to_nat _) with 0%nat by lia); reflexivity.
Qed.

(** ** Similarity and search: bounds and soundness *)

Lemma dot_product_null_stays (e : list num) (q : option (list num)) (idx : list nat) :
  fold_left
    (fun dot i => cy_add dot (cy_mul (cy_index (Some e) i) (cy_index q i)))
    idx None = None.
Proof. induction idx as [|i idx IH]; simpl; [reflexivity | exact IH]. Qed.

Lemma dot_product_null_at (e q : list num) (j : nat) :
  nth_error q j = None ->
  forall (idx : list nat) (acc : option num),
    In j idx ->
    fold_left
      (fun dot i => cy_add dot (cy_mul (cy_index (Some e) i) (cy_index (Some q) i)))
      idx acc = None.
Proof.
  intros Hj. induction idx as [|i idx IH]; intros acc Hin; [destruct Hin|].
  simpl. destruct Hin as [->|Hin].
  - rewrite Hj.
    replace (cy_add acc (cy_mul (nth_error e j) None)) with (@None num).
    + exact (dot_product_null_stays e (Some q) idx).
    + destruct acc, (nth_error e j); reflexivity.
  - now apply IH.
Qed.

(** X3.  The similarity of a node is [null] exactly when the node has no
    embedding or its embedding is longer than the query vector; a query
    vector longer than the embedding is cut to the embedding's length. *)
Theorem similarity_null_iff_vector_missing_or_longer :
  forall (c : node) (q : list num),
    similarity c (Some q) = None
    <-> (embedding c = None
         \/ exists e, embedding c = Some e /\ (length q < length e)%nat).
Proof.
  intros c q. split.
  - intros H. destruct (embedding c) as [e|] eqn:He; [|now left].
    right. exists e. split; [reflexivity|].
    destruct (Nat.lt_ge_cases (length q) (length e)) as [Hlt|Hge]; [exact Hlt|].
    destruct (similarity_defined q c) as (v & Hv); [|congruence].
    now exists e.
  - intros [H|(e & He & Hlt)]; unfold similarity; rewrite ?H; [reflexivity|].
    rewrite He. apply (dot_product_null_at e q (length q)).
    + now apply nth_error_None.
    + apply in_seq. lia.
Qed.

Lemma insert_desc_null_first (r : row) (l : list row) :
  (snd r = None \/ exists c t, l = (c, None) :: t) ->
  exists c t, insert_desc r l = (c, None) :: t.
Proof.
  destruct r as [cr [v|]]; simpl; intros [H|(c & t & ->)]; try discriminate.
  - simpl. now exists c, (insert_desc (cr, Some v) t).
  - destruct l; simpl; now eexists _, _.
  - simpl. now eexists _, _.
Qed.

Lemma order_by_similarity_desc_null_first (rows : list row) :
  (exists r, In r rows /\ snd r = None) ->
  exists c t, order_by_similarity_desc rows = (c, None) :: t.
Proof.
  induction rows as [|r rest IH]; intros (r0 & Hin & Hnull); [destruct Hin|].
  simpl. apply insert_desc_null_first.
  destruct Hin as [->|Hin]; [now left | right].
  apply IH. now exists r0.
Qed.

(** X4.  As soon as one stored node has a [null] similarity with the query
    vector, a search for at least one result raises [TypeError]: the
    [null] row sorts first and [float(None)] fails. *)
Theorem search_similar_fails_on_null_similarity :
  forall (q : option (list num)) (k : Z) (w : world) (c : node),
    (forall l, Permutation (scan l) l) ->
    1 <= k ->
    In c (db w) ->
    similarity c q = None ->
    search_similar q k w = (Raise type_error_float_none, w).
Proof.
  intros q k w c Hscan Hk Hin Hnull. unfold search_similar.
  replace (k <? 0) with false by (symmetry; apply Z.ltb_ge; lia).
  unfold run_search_query.
  destruct (order_by_similarity_desc_null_first
              (map (fun c => (c, similarity c q)) (scan (db w))))
    as (c0 & t & Hsorted).
  { exists (c, similarity c q). split; [|exact Hnull].
    apply in_map_iff. exists c. split; [reflexivity|].
    apply (Permutation_in _ (Permutation_sym (Hscan (db w)))).
    exact Hin. }
  rewrite Hsorted.
  destruct (Z.to_nat k) as [|n] eqn:En; [lia|]. reflexivity.
Qed.

Lemma Forall2_in_right {X Y} (P : X -> Y -> Prop) (la : list X) (lb : list Y)
    (b : Y) :
  Forall2 P la lb -> In b lb -> exists a, In a la /\ P a b.
Proof.
  induction 1 as [|a b' la lb Hab _ IH]; intros Hin; [destruct Hin|].
  destruct Hin as [<-|Hin].
  - exists a. split; [now left | exact Hab].
  - destruct (IH Hin) as (a' & Ha' & Hp). exists a'. split; [now right | exact Hp].
Qed.

Lemma search_hits_at_most_k (q : option (list num)) (k : Z) (w w' : world)
    (hits : list hit) :
  search_similar q k w = (Ok hits, w') -> Z.of_nat (length hits) <= k.
Proof.
  intros Hrun. unfold search_similar in Hrun.
  destruct (k <? 0) eqn:Ek; [discriminate|]. apply Z.ltb_ge in Ek.
  injection Hrun as Hrec _.
  apply records_to_chunks_inv in Hrec as (more & -> & Hall). simpl.
  rewrite <- (Forall2_length Hall). unfold run_search_query.
  pose proof (firstn_le_length (Z.to_nat k)
                (order_by_similarity_desc
                   (map (fun c => (c, similarity c q)) (scan (db w))))).
  lia.
Qed.

Lemma search_hits_stored (q : option (list num)) (k : Z) (w w' : world)
    (hits : list hit) :
  (forall l, Permutation (scan l) l) ->
  search_similar q k w = (Ok hits, w') ->
  Forall (fun h => exists c,
            In c (db w)
            /\ similarity c q = Some (hit_similarity h)
            /\ h = hit_of c (hit_similarity h)) hits.
Proof.
  intros Hscan Hrun. unfold search_similar in Hrun.
  destruct (k <? 0) eqn:Ek; [discriminate|].
  injection Hrun as Hrec _.
  apply records_to_chunks_inv in Hrec as (more & -> & Hall). simpl.
  apply Forall_forall. intros h Hh.
  destruct (Forall2_in_right _ _ _ _ Hall Hh) as (r & Hr & v & Hv & Heq).
  unfold run_search_query in Hr. apply in_firstn in Hr.
  apply (Permutation_in _ (order_by_similarity_desc_perm _)) in Hr.
  apply in_map_iff in Hr as (c & <- & Hc).
  apply (Permutation_in _ (Hscan (db w))) in Hc.
  exists c. subst h. simpl in *. now repeat split.
Qed.

(** X5.  Whatever a search returns was read from the store: there are at most
    [k] results, and each carries the id, text, source and position of a
    stored node together with that node's dot product with the query. *)
Theorem search_similar_returns_stored_chunks :
  forall (q : option (list num)) (k : Z) (w w' : world) (hits : list hit),
    (forall l, Permutation (scan l) l) ->
    search_similar q k w = (Ok hits, w') ->
    Z.of_nat (length hits) <= k
    /\ Forall (fun h => exists c,
                 In c (db w)
                 /\ similarity c q = Some (hit_similarity h)
                 /\ h = hit_of c (hit_similarity h)) hits.
Proof.
  intros q k w w' hits Hscan Hrun. split.
  - now apply (search_hits_at_most_k q k w w').
  - now apply (search_hits_stored q k w w').
Qed.

(** X6.  With [k] at least the number of stored chunks, the search returns every
    stored chunk exactly once. *)
Theorem search_similar_with_large_k_returns_every_chunk :
  forall (q : list num) (k : Z) (w : world),
    (forall l, Permutation (scan l) l) ->
    Forall (covered_by q) (db w) ->
    Z.of_nat (length (db w)) <= k ->
    exists hits,
      search_similar (Some q) k w = (Ok hits, w)
      /\ Permutation (map hit_id hits) (map id (db w)).
Proof.
  intros q k w Hscan Hcov Hk.
  destruct (run_search_query_rows (db w) q k Hscan Hcov) as [Hsome _].
  destruct (records_to_chunks_defined _ Hsome []) as (hits & Hrun & Hall).
  exists hits. unfold search_similar.
  replace (k <? 0) with false by (symmetry; apply Z.ltb_ge; lia).
  rewrite Hrun. split; [reflexivity|].
  assert (Hids : map hit_id hits
                 = map (fun r : row => id (fst r))
                       (run_search_query (db w) (Some q) k)).
  { clear Hrun Hsome. induction Hall as [|r h rows hs (v & _ & ->) _ IH];
      simpl; [reflexivity|]. now rewrite IH. }
  rewrite Hids. unfold run_search_query.
  rewrite firstn_all2.
  - rewrite (Permutation_map _ (order_by_similarity_desc_perm _)).
    rewrite map_map. simpl. now rewrite (Permutation_map _ (Hscan (db w))).
  - rewrite (Permutation_length (order_by_similarity_desc_perm _)).
    rewrite length_map, (Permutation_length (Hscan (db w))). lia.
Qed.

(** ** Deleting, counting and the uniqueness of ids *)

(** X7.  Once a source has been deleted, no search returns a chunk of it. *)
Theorem search_after_delete_finds_no_chunk_of_the_source :
  forall (s : pystr) (q : option (list num)) (k : Z) (w w' : world)
         (hits : list hit),
    (forall l, Permutation (scan l) l) ->
    search_similar q k (snd (delete_by_source s w)) = (Ok hits, w') ->
    Forall (fun h => hit_source h <> s) hits.
Proof.
  intros s q k w w' hits Hscan Hrun.
  pose proof (search_hits_stored q k _ w' hits Hscan Hrun) as Hall.
  apply Forall_forall. intros h Hh.
  rewrite Forall_forall in Hall. destruct (Hall h Hh) as (c & Hc & _ & ->).
  unfold delete_by_source in Hc. cbn [snd db] in Hc.
  apply filter_In in Hc as [_ Hc]. simpl.
  intros E. apply has_source_true in E. now rewrite E in Hc.
Qed.

Lemma filter_twice {X} (f : X -> bool) (l : list X) :
  filter f (filter f l) = filter f l.
Proof.
  induction l as [|x l IH]; simpl; [reflexivity|].
  destruct (f x) eqn:E; simpl; rewrite ?E, IH; reflexivity.
Qed.

Lemma filter_none {X} (f : X -> bool) (l : list X) :
  filter f (filter (fun x => negb (f x)) l) = [].
Proof.
  induction l as [|x l IH]; simpl; [reflexivity|].
  destruct (f x) eqn:E; simpl; rewrite ?E; exact IH.
Qed.

(** X8.  Deleting the same source a second time removes nothing: the store is
    as the first deletion left it and the printed count is 0. *)
Theorem delete_by_source_twice_removes_nothing :
  forall (s : pystr) (w : world),
    let w1 := snd (delete_by_source s w) in
    let w2 := snd (delete_by_source s w1) in
    db w2 = db w1
    /\ trace w2 = trace w1 ++ [EvPrint (deleted_line 0 s)].
Proof.
  intros s w. cbn zeta. unfold delete_by_source. cbn [snd db trace].
  rewrite filter_twice, filter_none. split; reflexivity.
Qed.

Lemma NoDup_map_filter {X Y} (g : X -> Y) (f : X -> bool) (l : list X) :
  NoDup (map g l) -> NoDup (map g (filter f l)).
Proof.
  induction l as [|x l IH]; simpl; intros H; [constructor|].
  inversion H as [|? ? Hnin Hnd]; subst.
  destruct (f x); [|now apply IH].
  simpl. constructor; [|now apply IH].
  intros Hin. apply Hnin. apply in_map_iff in Hin as (y & Hy & Hyin).
  apply filter_In in Hyin as [Hyin _]. apply in_map_iff. now exists y.
Qed.

Lemma fold_write_pair_NoDup (pairs : list (chunk * option (list num))) :
  forall nodes,
    NoDup (map id nodes) -> NoDup (map id (fold_left write_pair pairs nodes)).
Proof.
  induction pairs as [|p rest IH]; intros nodes H; simpl; [exact H|].
  apply IH. now apply merge_set_NoDup.
Qed.

(** X9.  The uniqueness of chunk ids is an invariant of the store: a single
    write, a batch write and a deletion all keep it. *)
Theorem store_operations_keep_ids_unique :
  forall (w : world),
    NoDup (map id (db w)) ->
    (forall chunk_id text embedding source chunk_index metadata,
        NoDup (map id (db (snd (store_chunk chunk_id text embedding source
                                            chunk_index metadata w)))))
    /\ (forall chunks embeddings,
           NoDup (map id (db (snd (store_chunks_batch chunks embeddings w)))))
    /\ (forall s, NoDup (map id (db (snd (delete_by_source s w))))).
Proof.
  intros w H. split; [|split].
  - intros. unfold store_chunk. cbn [snd db]. now apply merge_set_NoDup.
  - intros. unfold store_chunks_batch. rewrite store_each_run. cbn [snd db].
    now apply fold_write_pair_NoDup.
  - intros. unfold delete_by_source. cbn [snd db]. now apply NoDup_map_filter.
Qed.

(** How the chunk count moves: a write under a new id adds one, a write
    under an id already present adds none, and a deletion takes away as
    many chunks as have the source. *)
Theorem chunk_count_after_write_and_delete :
  forall (w : world),
    (forall chunk_id text embedding source chunk_index metadata,
        let w' := snd (store_chunk chunk_id text embedding source
                                   chunk_index metadata w) in
        fst (get_chunk_count w')
        = Ok (Z.of_nat (length (db w))
              + if existsb (has_id chunk_id) (db w) then 0 else 1))
    /\ (forall s,
           let w' := snd (delete_by_source s w) in
           fst (get_chunk_count w')
           = Ok (Z.of_nat (length (db w))
                 - Z.of_nat (length (filter (has_source s) (db w))))).
Proof.
  intros w. split.
  - intros. subst w'. unfold store_chunk, get_chunk_count, merge_set.
    cbn [fst snd db id]. f_equal.
    destruct (existsb _ (db w)).
    + rewrite length_map. lia.
    + rewrite length_app. simpl. lia.
  - intros. subst w'. unfold delete_by_source, get_chunk_count.
    cbn [fst snd db]. f_equal.
    pose proof (filter_length (has_source s) (db w)). lia.
Qed.

(** ** The catalogue of sources *)

Lemma existsb_eqb_In (v : pystr) (l : list pystr) :
  existsb (PyStr.eqb v) l = true <-> In v l.
Proof.
  rewrite existsb_exists. split.
  - intros (x & Hin & H). apply pystr_eqb_eq in H. now subst.
  - intros H. exists v. split; [exact H | apply pystr_eqb_refl].
Qed.

Lemma distinct_In (l : list pystr) (x : pystr) : In x (distinct l) <-> In x l.
Proof.
  induction l as [|v rest IH]; simpl; [reflexivity|].
  destruct (existsb (PyStr.eqb v) rest) eqn:E.
  - rewrite IH. split; [now right|]. intros [<-|H]; [|exact H].
    now apply existsb_eqb_In.
  - simpl. now rewrite IH.
Qed.

Lemma distinct_NoDup (l : list pystr) : NoDup (distinct l).
Proof.
  induction l as [|v rest IH]; simpl; [constructor|].
  destruct (existsb (PyStr.eqb v) rest) eqn:E; [exact IH|].
  constructor; [|exact IH]. rewrite distinct_In. intros H.
  apply existsb_eqb_In in H. congruence.
Qed.

Lemma distinct_length (l : list pystr) : (length (distinct l) <= length l)%nat.
Proof.
  induction l as [|v rest IH]; simpl; [lia|].
  destruct (existsb (PyStr.eqb v) rest); simpl; lia.
Qed.

Lemma distinct_nil (l : list pystr) : distinct l = [] -> l = [].
Proof.
  destruct l as [|v rest]; [reflexivity|]. intros H. exfalso.
  assert (Hin : In v (distinct (v :: rest))) by (apply distinct_In; now left).
  rewrite H in Hin. destruct Hin.
Qed.

Lemma insert_str_perm s l : Permutation (insert_str s l) (s :: l).
Proof.
  induction l as [|h t IH]; simpl; [reflexivity|].
  destruct (str_leb s h); [reflexivity|]. rewrite IH. apply perm_swap.
Qed.

Lemma order_by_str_perm l : Permutation (order_by_str l) l.
Proof.
  induction l as [|v rest IH]; simpl; [reflexivity|].
  rewrite insert_str_perm. now constructor.
Qed.

Lemma order_by_str_sorted l :
  (forall a b, str_leb a b = true \/ str_leb b a = true) ->
  Sorted (fun a b => str_leb a b = true) (order_by_str l).
Proof.
  intros Htotal. induction l as [|v rest IH]; simpl; [constructor|].
  induction IH as [|h t Hs IHs Hhd]; simpl; [repeat constructor|].
  destruct (str_leb v h) eqn:E.
  - constructor; [now constructor | now constructor].
  - constructor; [exact IHs|].
    assert (Hhv : str_leb h v = true)
      by (destruct (Htotal v h); [congruence | assumption]).
    destruct Hhd as [|h' t' Hhh']; simpl.
    + now constructor.
    + destruct (str_leb v h'); now constructor.
Qed.

Lemma listed_sources_membership (nodes : list node) (s : pystr) :
  (forall l, Permutation (scan l) l) ->
  In s (order_by_str (distinct (map source (scan nodes))))
  <-> exists c, In c nodes /\ source c = s.
Proof.
  intros Hscan. split.
  - intros H. apply (Permutation_in _ (order_by_str_perm _)) in H.
    apply distinct_In, in_map_iff in H as (c & Hc & Hin).
    exists c. split; [|exact Hc].
    now apply (Permutation_in _ (Hscan nodes)).
  - intros (c & Hin & Hc).
    apply (Permutation_in _ (Permutation_sym (order_by_str_perm _))).
    apply distinct_In, in_map_iff. exists c. split; [exact Hc|].
    now apply (Permutation_in _ (Permutation_sym (Hscan nodes))).
Qed.

(** X10.  [get_all_sources] lists every source that has a stored chunk, each once,
    in the database's order of strings, and leaves the world as it is. *)
Theorem get_all_sources_lists_each_source_once :
  forall (w : world),
    (forall l, Permutation (scan l) l) ->
    (forall a b, str_leb a b = true \/ str_leb b a = true) ->
    exists sources,
      get_all_sources w = (Ok sources, w)
      /\ NoDup sources
      /\ (forall s, In s sources <-> exists c, In c (db w) /\ source c = s)
      /\ Sorted (fun a b => str_leb a b = true) sources.
Proof.
  intros w Hscan Htotal. eexists. split; [reflexivity|]. split; [|split].
  - apply (Permutation_NoDup (Permutation_sym (order_by_str_perm _))).
    apply distinct_NoDup.
  - intros s. now apply listed_sources_membership.
  - now apply order_by_str_sorted.
Qed.

(** X11.  After a source has been deleted it is no longer listed, and every
    other source is listed exactly if it was listed before. *)
Theorem deleted_source_is_no_longer_listed :
  forall (s : pystr) (w : world),
    (forall l, Permutation (scan l) l) ->
    exists before_delete after_delete,
      fst (get_all_sources w) = Ok before_delete
      /\ fst (get_all_sources (snd (delete_by_source s w))) = Ok after_delete
      /\ ~ In s after_delete
      /\ (forall d, d <> s -> (In d after_delete <-> In d before_delete)).
Proof.
  intros s w Hscan. eexists _, _. split; [reflexivity|]. split; [reflexivity|].
  unfold delete_by_source. cbn [snd db]. split.
  - intros H. apply (listed_sources_membership _ _ Hscan) in H as (c & Hc & Hs).
    apply filter_In in Hc as [_ Hc].
    rewrite (proj2 (has_source_true s c) Hs) in Hc. discriminate.
  - intros d Hd. rewrite !(listed_sources_membership _ _ Hscan).
    split; intros (c & Hc & Hs); exists c; (split; [|exact Hs]).
    + now apply filter_In in Hc as [Hc _].
    + apply filter_In. split; [exact Hc|].
      destruct (has_source s c) eqn:E; [|reflexivity].
      apply has_source_true in E. congruence.
Qed.

(** X12.  [get_database_info] never reports more documents than chunks, reports
    no document exactly when the store is empty, and its document list is
    what [get_all_sources] returns. *)
Theorem get_database_info_counts_documents_and_chunks :
  forall (w : world),
    (forall l, Permutation (scan l) l) ->
    exists info,
      get_database_info w = (Ok info, w)
      /\ info_total_chunks info = Z.of_nat (length (db w))
      /\ info_total_documents info = Z.of_nat (length (info_documents info))
      /\ fst (get_all_sources w) = Ok (info_documents info)
      /\ 0 <= info_total_documents info <= info_total_chunks info
      /\ (info_total_documents info = 0 <-> info_total_chunks info = 0).
Proof.
  intros w Hscan. eexists. split; [reflexivity|]. cbn.
  split; [reflexivity|]. split; [reflexivity|]. split; [reflexivity|].
  set (values := map source (scan (db w))).
  assert (Hlen : length values = length (db w))
    by (unfold values; now rewrite length_map, (Permutation_length (Hscan (db w)))).
  rewrite (Permutation_length (order_by_str_perm (distinct values))).
  pose proof (distinct_length values) as Hle.
  split; [lia|]. split; intros H.
  - assert (Hnil : distinct values = [])
      by (destruct (distinct values); [reflexivity | simpl in H; lia]).
    apply distinct_nil in Hnil. rewrite Hnil in Hlen. simpl in Hlen. lia.
  - lia.
Qed.

(** ** The shape of extracted chunks *)

(** What [extract_chunks] gives the chunk at position [i]: its position as
    index, the id made of the file stem and the index, the file name as
    source, and the length of its text in the metadata. *)
Definition chunk_well_formed (pdf_path : pystr) (i : nat) (c : chunk) : Prop :=
  chunk_index_of c = Z.of_nat i
  /\ chunk_id_of c = path_stem pdf_path ++ lit "_chunk_" ++ of_int (Z.of_nat i)
  /\ chunk_source c = path_name pdf_path
  /\ metadata_length (chunk_metadata c) = Some (len (chunk_text c)).

Definition chunks_well_formed (pdf_path : pystr) (chunks : list chunk) : Prop :=
  forall i c, nth_error chunks i = Some c -> chunk_well_formed pdf_path i c.

Lemma chunks_well_formed_snoc pdf_path chunks c :
  chunks_well_formed pdf_path chunks ->
  chunk_well_formed pdf_path (length chunks) c ->
  chunks_well_formed pdf_path (chunks ++ [c]).
Proof.
  intros Hall Hc i c' Hnth.
  destruct (Nat.lt_ge_cases i (length chunks)) as [Hlt|Hge].
  - rewrite nth_error_app1 in Hnth by exact Hlt. now apply Hall.
  - rewrite nth_error_app2 in Hnth by exact Hge.
    destruct (i - length chunks)%nat as [|n] eqn:E; simpl in Hnth.
    + injection Hnth as <-. now replace i with (length chunks) by lia.
    + destruct n; discriminate.
Qed.

Lemma paragraphs_loop_well_formed (self : PDFProcessor) (pdf_path : pystr)
    (paragraphs : list pystr) :
  forall chunks chunk_id,
    chunk_id = Z.of_nat (length chunks) ->
    chunks_well_formed pdf_path chunks ->
    chunks_well_formed pdf_path
      (fst (paragraphs_loop self pdf_path paragraphs chunks chunk_id)).
Proof.
  induction paragraphs as [|para rest IH]; intros chunks chunk_id Hid Hall;
    simpl; [exact Hall|].
  destruct (keeps self (strip para)); [|now apply IH].
  apply IH.
  - rewrite length_app. simpl. lia.
  - apply chunks_well_formed_snoc; [exact Hall|]. subst chunk_id.
    repeat split.
Qed.

Lemma elements_loop_well_formed (self : PDFProcessor) (pdf_path : pystr)
    (elements : list element) :
  forall chunks chunk_id,
    chunk_id = Z.of_nat (length chunks) ->
    chunks_well_formed pdf_path chunks ->
    chunks_well_formed pdf_path
      (fst (elements_loop self pdf_path elements chunks chunk_id)).
Proof.
  induction elements as [|el rest IH]; intros chunks chunk_id Hid Hall;
    simpl; [exact Hall|].
  fold (element_stripped el).
  destruct (keeps self (element_stripped el)); [|now apply IH].
  apply IH.
  - rewrite length_app. simpl. lia.
  - apply chunks_well_formed_snoc; [exact Hall|]. subst chunk_id.
    repeat split.
Qed.

Lemma extract_chunks_well_formed (self : PDFProcessor) (pdf_path : pystr)
    (chunks : list chunk) :
  extract_chunks self pdf_path = Ok chunks ->
  chunks_well_formed pdf_path chunks.
Proof.
  intros H. unfold extract_chunks in H.
  destruct (convert pdf_path) as [result|e]; [|discriminate].
  assert (Hnil : chunks_well_formed pdf_path [])
    by (intros [|i] c Hc; discriminate).
  destruct (export_to_markdown result); injection H as <-.
  - now apply paragraphs_loop_well_formed.
  - now apply elements_loop_well_formed.
Qed.

Lemma digits_inj (u u' : Decimal.uint) : digits u = digits u' -> u = u'.
Proof.
  revert u'. induction u as [|u IH|u IH|u IH|u IH|u IH|u IH|u IH|u IH|u IH|u IH];
    intros [|u'|u'|u'|u'|u'|u'|u'|u'|u'|u']; simpl; intros H;
    try discriminate H; try reflexivity;
    injection H as H; f_equal; now apply IH.
Qed.

Lemma digits_not_minus (u : Decimal.uint) (r : pystr) : digits u <> 45%N :: r.
Proof. destruct u; simpl; intros H; discriminate H. Qed.

(** Two integers with the same decimal rendering are equal. *)
Lemma of_int_inj (a b : Z) : of_int a = of_int b -> a = b.
Proof.
  unfold of_int. intros H. apply DecimalZ.to_int_inj.
  destruct (Z.to_int a) as [u|u], (Z.to_int b) as [u'|u'].
  - f_equal. now apply digits_inj.
  - exfalso. now apply (digits_not_minus u (digits u')).
  - exfalso. symmetry in H. now apply (digits_not_minus u' (digits u)).
  - injection H as H. f_equal. now apply digits_inj.
Qed.

(** X13.  Whichever extraction method ran, the chunks are numbered 0, 1, 2, ...
    in the order they are returned, and each chunk's id, source and
    recorded length follow from the path, its index and its text. *)
Theorem extract_chunks_numbers_chunks_in_order :
  forall (self : PDFProcessor) (pdf_path : pystr) (chunks : list chunk),
    extract_chunks self pdf_path = Ok chunks ->
    map chunk_index_of chunks = map Z.of_nat (seq 0 (length chunks))
    /\ (forall i c,
          nth_error chunks i = Some c ->
          chunk_id_of c
          = path_stem pdf_path ++ lit "_chunk_" ++ of_int (chunk_index_of c)
          /\ chunk_source c = path_name pdf_path
          /\ metadata_length (chunk_metadata c) = Some (len (chunk_text c))).
Proof.
  intros self pdf_path chunks H. apply extract_chunks_well_formed in H.
  split.
  - apply nth_error_ext. intros i. rewrite !nth_error_map.
    destruct (nth_error chunks i) as [c|] eqn:E; simpl.
    + destruct (H i c E) as (-> & _).
      assert (Hi : (i < length chunks)%nat)
        by (apply nth_error_Some; congruence).
      rewrite (nth_error_nth' _ 0%nat) by (now rewrite length_seq).
      now rewrite seq_nth.
    + apply nth_error_None in E.
      assert (Hn : nth_error (seq 0 (length chunks)) i = None)
        by (apply nth_error_None; now rewrite length_seq).
      now rewrite Hn.
  - intros i c E. destruct (H i c E) as (Hi & Hid & Hsrc & Hmd).
    rewrite Hi. now repeat split.
Qed.

Lemma well_formed_ids_distinct (pdf_path : pystr) (chunks : list chunk) :
  chunks_well_formed pdf_path chunks -> NoDup (map chunk_id_of chunks).
Proof.
  intros H.
  apply NoDup_nth_error. intros i j Hi E.
  rewrite length_map in Hi. rewrite !nth_error_map in E.
  destruct (nth_error chunks i) as [ci|] eqn:Ei;
    [|apply nth_error_None in Ei; lia].
  destruct (nth_error chunks j) as [cj|] eqn:Ej; [|discriminate].
  simpl in E. injection E as E.
  destruct (H i ci Ei) as (_ & Hi_id & _). destruct (H j cj Ej) as (_ & Hj_id & _).
  rewrite Hi_id, Hj_id in E.
  apply app_inv_head, app_inv_head, of_int_inj in E. lia.
Qed.

(** X14.  The ids of the chunks of one extraction are pairwise distinct, so a
    batch write of them creates one record per chunk. *)
Theorem extract_chunks_ids_are_distinct :
  forall (self : PDFProcessor) (pdf_path : pystr) (chunks : list chunk),
    extract_chunks self pdf_path = Ok chunks ->
    NoDup (map chunk_id_of chunks).
Proof.
  intros self pdf_path chunks H.
  apply (well_formed_ids_distinct pdf_path).
  now apply (extract_chunks_well_formed self).
Qed.

(** ** Stripped texts *)

Definition starts_with_space (s : pystr) : bool :=
  match s with c :: _ => is_space c | [] => false end.

Lemma lstrip_head (s : pystr) : starts_with_space (lstrip s) = false.
Proof.
  induction s as [|c r IH]; simpl; [reflexivity|].
  destruct (is_space c) eqn:E; [exact IH | simpl; exact E].
Qed.

Lemma lstrip_keeps_last (u : pystr) (c : N) :
  is_space c = false -> exists u', lstrip (u ++ [c]) = u' ++ [c].
Proof.
  intros Hc. induction u as [|x u IH]; simpl.
  - rewrite Hc. now exists [].
  - destruct (is_space x); [exact IH | now exists (x :: u)].
Qed.

(** [strip] leaves no white space at either end. *)
Lemma strip_has_no_edge_space (s : pystr) :
  starts_with_space (strip s) = false
  /\ starts_with_space (rev (strip s)) = false.
Proof.
  unfold strip. split.
  - pose proof (lstrip_head s) as Hh.
    destruct (lstrip s) as [|c t]; [reflexivity|].
    simpl in Hh. simpl rev.
    destruct (lstrip_keeps_last (rev t) c Hh) as (u' & ->).
    rewrite rev_app_distr. simpl. exact Hh.
  - rewrite rev_involutive. apply lstrip_head.
Qed.

Definition no_edge_space (t : pystr) : Prop :=
  starts_with_space t = false /\ starts_with_space (rev t) = false.

Lemma extract_chunks_texts_kept (self : PDFProcessor) (pdf_path : pystr)
    (chunks : list chunk) :
  extract_chunks self pdf_path = Ok chunks ->
  exists texts,
    map chunk_text chunks = filter (keeps self) texts
    /\ Forall no_edge_space texts.
Proof.
  intros H. unfold extract_chunks in H.
  destruct (convert pdf_path) as [result|e]; [|discriminate].
  destruct (export_to_markdown result) as [full_text|e]; injection H as <-.
  - exists (map strip (split_blank_lines full_text)). split.
    + exact (paragraphs_loop_texts self pdf_path _ [] 0).
    + apply Forall_forall. intros t Ht. apply in_map_iff in Ht as (p & <- & _).
      apply strip_has_no_edge_space.
  - exists (map element_stripped (iterate_items result)). split.
    + exact (elements_loop_texts self pdf_path _ [] 0).
    + apply Forall_forall. intros t Ht. apply in_map_iff in Ht as (el & <- & _).
      unfold element_stripped. destruct (element_text el).
      * apply strip_has_no_edge_space.
      * now split.
Qed.

Lemma kept_text_is_long (self : PDFProcessor) (chunks : list chunk)
    (texts : list pystr) (c : chunk) :
  map chunk_text chunks = filter (keeps self) texts ->
  In c chunks ->
  In (chunk_text c) texts /\ min_chunk_length self < len (chunk_text c).
Proof.
  intros Hmap Hc. apply (in_map chunk_text) in Hc. rewrite Hmap in Hc.
  apply filter_In in Hc as [Hin Hk]. unfold keeps in Hk.
  apply andb_true_iff in Hk as [_ Hl]. apply Z.gtb_lt in Hl. now split.
Qed.

(** X15.  Every extracted chunk has a non-empty text, longer than the configured
    minimum, without white space at its start or its end. *)
Theorem extract_chunks_texts_are_stripped :
  forall (self : PDFProcessor) (pdf_path : pystr) (chunks : list chunk),
    extract_chunks self pdf_path = Ok chunks ->
    Forall (fun c =>
              min_chunk_length self < len (chunk_text c)
              /\ starts_with_space (chunk_text c) = false
              /\ starts_with_space (rev (chunk_text c)) = false) chunks.
Proof.
  intros self pdf_path chunks H.
  destruct (extract_chunks_texts_kept self pdf_path chunks H)
    as (texts & Hmap & Hst).
  apply Forall_forall. intros c Hc.
  destruct (kept_text_is_long self chunks texts c Hmap Hc) as [Hin Hlong].
  rewrite Forall_forall in Hst. destruct (Hst _ Hin). now repeat split.
Qed.

(** ** Chunk statistics *)

Lemma fold_min_le (l : list Z) :
  forall a, fold_left Z.min l a <= a /\ Forall (fun x => fold_left Z.min l a <= x) l.
Proof.
  induction l as [|x l IH]; intros a; simpl; [split; [lia | constructor]|].
  destruct (IH (Z.min a x)) as [H1 H2]. split; [lia|].
  constructor; [lia | exact H2].
Qed.

Lemma fold_max_ge (l : list Z) :
  forall a, a <= fold_left Z.max l a /\ Forall (fun x => x <= fold_left Z.max l a) l.
Proof.
  induction l as [|x l IH]; intros a; simpl; [split; [lia | constructor]|].
  destruct (IH (Z.max a x)) as [H1 H2]. split; [lia|].
  constructor; [lia | exact H2].
Qed.

Lemma fold_min_in (l : list Z) : forall a, In (fold_left Z.min l a) (a :: l).
Proof.
  induction l as [|x l IH]; intros a; simpl; [now left|].
  destruct (IH (Z.min a x)) as [H|H]; [|now right; right].
  rewrite <- H. destruct (Z.min_spec a x) as [[_ ->]|[_ ->]]; auto.
Qed.

Lemma fold_max_in (l : list Z) : forall a, In (fold_left Z.max l a) (a :: l).
Proof.
  induction l as [|x l IH]; intros a; simpl; [now left|].
  destruct (IH (Z.max a x)) as [H|H]; [|now right; right].
  rewrite <- H. destruct (Z.max_spec a x) as [[_ ->]|[_ ->]]; auto.
Qed.

Lemma fold_add_sum (l : list Z) :
  forall a, fold_left Z.add l a = a + fold_right Z.add 0 l.
Proof.
  induction l as [|x l IH]; intros a; simpl; [lia|]. rewrite IH. lia.
Qed.

Lemma metadata_lengths_ok (chunks : list chunk) (lengths : list Z) :
  metadata_lengths chunks = Ok lengths <->
  map (fun c => metadata_length (chunk_metadata c)) chunks = map Some lengths.
Proof.
  revert lengths. induction chunks as [|c rest IH]; intros lengths; simpl.
  - split; intros H.
    + now injection H as <-.
    + destruct lengths; [reflexivity | discriminate].
  - destruct (metadata_length (chunk_metadata c)) as [n|].
    + destruct (metadata_lengths rest) as [ns|e].
      * split; intros H.
        -- injection H as <-. simpl. f_equal. now apply IH.
        -- destruct lengths as [|n' ns']; [discriminate|].
           injection H as -> H. apply IH in H. now injection H as ->.
      * split; intros H; [discriminate|].
        destruct lengths as [|n' ns']; [discriminate|].
        injection H as _ H. apply IH in H. discriminate.
    + split; intros H; [discriminate|].
      destruct lengths; discriminate.
Qed.

Lemma chunk_statistics_explicit (chunks : list chunk) (n : Z) (ns : list Z) :
  metadata_lengths chunks = Ok (n :: ns) ->
  get_chunk_statistics chunks
  = Ok {| total_chunks := Z.of_nat (length chunks);
          total_chars := fold_left Z.add (n :: ns) 0;
          avg_chunk_size :=
            num_round (num_div (num_of_int (fold_left Z.add (n :: ns) 0))
                               (num_of_int (Z.of_nat (length chunks)))) 2;
          min_chunk_size := Some (fold_left Z.min ns n);
          max_chunk_size := Some (fold_left Z.max ns n) |}.
Proof.
  intros H. unfold get_chunk_statistics.
  destruct chunks as [|c0 cs]; [discriminate|]. now rewrite H.
Qed.

Lemma fold_min_max_bound (n : Z) (ns : list Z) :
  In (fold_left Z.min ns n) (n :: ns) /\ In (fold_left Z.max ns n) (n :: ns)
  /\ Forall (fun x => fold_left Z.min ns n <= x <= fold_left Z.max ns n) (n :: ns).
Proof.
  destruct (fold_min_le ns n) as [Hmin Hmins].
  destruct (fold_max_ge ns n) as [Hmax Hmaxs].
  split; [apply fold_min_in|]. split; [apply fold_max_in|].
  constructor; [lia|].
  rewrite Forall_forall in *. intros x Hx.
  specialize (Hmins x Hx). specialize (Hmaxs x Hx). lia.
Qed.

(** X16.  For a non-empty list of chunks that all record their length, the
    statistics are returned: the count, the total of the lengths, and a
    minimum and a maximum that are lengths of chunks of the list and bound
    every length. *)
Theorem get_chunk_statistics_bounds_every_length :
  forall (chunks : list chunk) (lengths : list Z),
    chunks <> [] ->
    map (fun c => metadata_length (chunk_metadata c)) chunks = map Some lengths ->
    exists st lo hi,
      get_chunk_statistics chunks = Ok st
      /\ total_chunks st = Z.of_nat (length chunks)
      /\ total_chars st = fold_right Z.add 0 lengths
      /\ min_chunk_size st = Some lo /\ max_chunk_size st = Some hi
      /\ In lo lengths /\ In hi lengths
      /\ Forall (fun n => lo <= n <= hi) lengths.
Proof.
  intros chunks lengths Hne Hmap.
  destruct lengths as [|n ns]; [destruct chunks; [congruence | discriminate]|].
  apply metadata_lengths_ok in Hmap.
  rewrite (chunk_statistics_explicit chunks n ns Hmap).
  destruct (fold_min_max_bound n ns) as (Hlo & Hhi & Hall).
  eexists _, _, _. split; [reflexivity|]. cbn [total_chunks total_chars
    min_chunk_size max_chunk_size].
  split; [reflexivity|]. split; [rewrite fold_add_sum; lia|].
  split; [reflexivity|]. split; [reflexivity|].
  split; [exact Hlo|]. split; [exact Hhi | exact Hall].
Qed.

(** [metadata[key]]: the value under a key, if the key is there. *)
Fixpoint metadata_get (md : list (pystr * pyval)) (key : pystr) : option pyval :=
  match md with
  | [] => None
  | (k, v) :: r => if PyStr.eqb k key then Some v else metadata_get r key
  end.

Definition length_is_int_or_absent (c : chunk) : Prop :=
  match metadata_get (chunk_metadata c) (lit "length") with
  | Some (PyInt _) | None => True
  | Some _ => False
  end.

Lemma metadata_length_get (md : list (pystr * pyval)) :
  metadata_length md
  = match metadata_get md (lit "length") with
    | Some (PyInt z) => Some z
    | _ => None
    end.
Proof.
  induction md as [|[k v] r IH]; [reflexivity|].
  cbn [metadata_length metadata_get].
  destruct (PyStr.eqb k (lit "length")); [reflexivity | exact IH].
Qed.

(** X17.  When the recorded lengths that are there are integers, one chunk
    without the key ["length"] makes the statistics fail with [KeyError]. *)
Theorem get_chunk_statistics_needs_every_length :
  forall (chunks : list chunk) (c : chunk),
    Forall length_is_int_or_absent chunks ->
    In c chunks ->
    metadata_get (chunk_metadata c) (lit "length") = None ->
    get_chunk_statistics chunks = Raise key_error_length.
Proof.
  intros chunks c Hall Hin Hnone.
  assert (H : metadata_lengths chunks = Raise key_error_length).
  { clear Hall. induction chunks as [|c0 cs IH]; [destruct Hin|]. simpl.
    destruct Hin as [->|Hin].
    - now rewrite metadata_length_get, Hnone.
    - rewrite (IH Hin). now destruct (metadata_length (chunk_metadata c0)). }
  unfold get_chunk_statistics. destruct chunks; [destruct Hin|]. now rewrite H.
Qed.

(** X18.  The statistics of an extraction are always defined, their total is the
    total length of the chunk texts, and the minimum they report is above
    the configured minimum chunk length. *)
Theorem statistics_of_extracted_chunks :
  forall (self : PDFProcessor) (pdf_path : pystr) (chunks : list chunk),
    extract_chunks self pdf_path = Ok chunks ->
    chunks <> [] ->
    exists st lo,
      get_chunk_statistics chunks = Ok st
      /\ total_chunks st = Z.of_nat (length chunks)
      /\ total_chars st = fold_right Z.add 0 (map (fun c => len (chunk_text c)) chunks)
      /\ min_chunk_size st = Some lo
      /\ min_chunk_length self < lo.
Proof.
  intros self pdf_path chunks Hext Hne.
  pose proof (extract_chunks_well_formed _ _ _ Hext) as Hwf.
  destruct (extract_chunks_texts_kept _ _ _ Hext) as (texts & Hkept & _).
  assert (Hmap : map (fun c => metadata_length (chunk_metadata c)) chunks
                 = map Some (map (fun c => len (chunk_text c)) chunks)).
  { rewrite map_map. apply nth_error_ext. intros i. rewrite !nth_error_map.
    destruct (nth_error chunks i) as [c|] eqn:E; [|reflexivity]. simpl.
    f_equal. now destruct (Hwf i c E) as (_ & _ & _ & ->). }
  apply metadata_lengths_ok in Hmap.
  destruct chunks as [|c0 cs]; [congruence|]. cbn [map] in Hmap.
  rewrite (chunk_statistics_explicit _ _ _ Hmap).
  destruct (fold_min_max_bound (len (chunk_text c0))
              (map (fun c => len (chunk_text c)) cs)) as (Hlo & _ & _).
  eexists _, _. split; [reflexivity|].
  cbn [total_chunks total_chars min_chunk_size].
  split; [reflexivity|]. split; [rewrite fold_add_sum; simpl; lia|].
  split; [reflexivity|].
  change (len (chunk_text c0) :: map (fun c => len (chunk_text c)) cs)
    with (map (fun c => len (chunk_text c)) (c0 :: cs)) in Hlo.
  apply in_map_iff in Hlo as (c & <- & Hc).
  now destruct (kept_text_is_long self (c0 :: cs) texts c Hkept Hc).
Qed.

(** ** Ingestion, step by step *)

Lemma generate_first_attempt {A} (ev : event) (respond : list event -> outcome A)
    (m : Z) (w : world) (v : A) :
  0 < m ->
  respond (trace w) = Ok v ->
  retry_loop (upstream ev respond) m (py_range m) w
  = (Ok (Some v), World (db w) (trace w ++ [ev])).
Proof.
  intros Hm Hv.
  destruct (retry_loop_policy ev respond m w 0%nat) as (H & _ & _).
  - lia.
  - intros i Hi. lia.
  - now apply H.
Qed.

Lemma generate_keeps_db {A} (ev : event) (respond : list event -> outcome A)
    (m : Z) (attempts : list Z) :
  forall w, db (snd (retry_loop (upstream ev respond) m attempts w)) = db w.
Proof.
  induction attempts as [|a rest IH]; intros w; simpl; [reflexivity|].
  unfold upstream at 1. destruct (respond (trace w)) as [v|e]; [reflexivity|].
  destruct (is_rate_limit e); [|reflexivity].
  destruct (a <? m - 1); [|reflexivity]. now rewrite IH.
Qed.

Lemma embed_loop_keeps_db (self : RAGOrchestrator) (chunks : list chunk) :
  forall embeddings w, db (snd (embed_loop self chunks embeddings w)) = db w.
Proof.
  induction chunks as [|c rest IH]; intros embeddings w; simpl; [reflexivity|].
  unfold bind, generate_document_embedding, EmbeddingGenerator_generate, embed_call.
  pose proof (generate_keeps_db
                (EvEmbed (eg_model (embedding_generator self)) (chunk_text c)
                         (lit "retrieval_document"))
                (fun tr => embed_content tr (eg_model (embedding_generator self))
                                         (chunk_text c) (lit "retrieval_document"))
                (eg_max_retries (embedding_generator self))
                (py_range (eg_max_retries (embedding_generator self))) w) as Hdb.
  destruct (retry_loop _ _ _ w) as [[v|e] w1]; simpl in Hdb |- *.
  - now rewrite IH.
  - exact Hdb.
Qed.

(** X19.  All embeddings are computed before anything is written: when the
    embedding of some chunk fails, [process_and_store_pdf] raises that
    error and the store holds what it held before. *)
Theorem failed_embedding_stores_nothing :
  forall (self : RAGOrchestrator) (pdf_path : pystr) (w w1 : world)
         (chunks : list chunk) (e : exn),
    extract_chunks (pdf_processor self) pdf_path = Ok chunks ->
    embed_loop self chunks [] w = (Raise e, w1) ->
    process_and_store_pdf self pdf_path w = (Raise e, w1)
    /\ db w1 = db w.
Proof.
  intros self pdf_path w w1 chunks e Hext Hemb. split.
  - unfold process_and_store_pdf. rewrite Hext.
    destruct chunks as [|c cs]; [discriminate|].
    unfold bind. now rewrite Hemb.
  - pose proof (embed_loop_keeps_db self chunks [] w) as H.
    now rewrite Hemb in H.
Qed.

Definition embed_event (self : RAGOrchestrator) (c : chunk) : event :=
  EvEmbed (eg_model (embedding_generator self)) (chunk_text c)
          (lit "retrieval_document").

Lemma embed_loop_answers (self : RAGOrchestrator) (chunks : list chunk) :
  0 < eg_max_retries (embedding_generator self) ->
  (forall tr content, exists v,
      embed_content tr (eg_model (embedding_generator self)) content
                    (lit "retrieval_document") = Ok v) ->
  forall embeddings w,
    exists more,
      embed_loop self chunks embeddings w
      = (Ok (embeddings ++ more),
         World (db w) (trace w ++ map (embed_event self) chunks))
      /\ length more = length chunks.
Proof.
  intros Hm Hans. induction chunks as [|c rest IH]; intros embeddings w; simpl.
  - exists []. rewrite !app_nil_r. now destruct w.
  - destruct (Hans (trace w) (chunk_text c)) as (v & Hv).
    unfold bind, generate_document_embedding, EmbeddingGenerator_generate, embed_call.
    rewrite (generate_first_attempt _ _ _ w v Hm Hv).
    destruct (IH (embeddings ++ [Some v])
                 (World (db w) (trace w ++ [embed_event self c])))
      as (more & Hrun & Hlen).
    exists (Some v :: more). unfold embed_event in *. rewrite Hrun.
    cbn [db trace]. rewrite <- !app_assoc. simpl. split; [reflexivity | lia].
Qed.

Lemma fold_write_pair_keeps_ids (pairs : list (chunk * option (list num))) :
  forall nodes i,
    In i (map id nodes) -> In i (map id (fold_left write_pair pairs nodes)).
Proof.
  induction pairs as [|p rest IH]; intros nodes i H; simpl; [exact H|].
  apply IH. unfold write_pair. rewrite merge_set_ids.
  destruct (existsb _ nodes); [exact H | apply in_or_app; now left].
Qed.

Lemma fold_write_pair_stores_ids (pairs : list (chunk * option (list num))) :
  forall nodes p,
    In p pairs ->
    In (chunk_id_of (fst p)) (map id (fold_left write_pair pairs nodes)).
Proof.
  induction pairs as [|p0 rest IH]; intros nodes p Hin; [destruct Hin|].
  simpl. destruct Hin as [->|Hin]; [|now apply IH].
  apply fold_write_pair_keeps_ids. apply in_map_iff.
  exists (node_of (fst p) (snd p)). split; [reflexivity | apply merge_set_In].
Qed.

Lemma fold_write_pair_new_ids (pairs : list (chunk * option (list num))) :
  forall nodes,
    NoDup (map (fun p => chunk_id_of (fst p)) pairs) ->
    (forall p, In p pairs -> ~ In (chunk_id_of (fst p)) (map id nodes)) ->
    length (fold_left write_pair pairs nodes) = (length nodes + length pairs)%nat.
Proof.
  induction pairs as [|p rest IH]; intros nodes Hnd Hnew; simpl; [lia|].
  inversion Hnd as [|? ? Hnin Hnd']; subst.
  assert (Hp : existsb (has_id (chunk_id_of (fst p))) nodes = false).
  { destruct (existsb _ nodes) eqn:E; [|reflexivity].
    apply existsb_has_id in E. exfalso. apply (Hnew p); [now left | exact E]. }
  rewrite IH.
  - unfold write_pair, merge_set. cbn [id node_of]. rewrite Hp, length_app.
    simpl. lia.
  - exact Hnd'.
  - intros q Hq Hin. unfold write_pair in Hin. rewrite merge_set_ids in Hin.
    cbn [id node_of] in Hin. rewrite Hp in Hin.
    apply in_app_or in Hin as [Hin|[Hin|[]]].
    + apply (Hnew q); [now right | exact Hin].
    + apply Hnin. apply in_map_iff. exists q. split; [now symmetry | exact Hq].
Qed.

Lemma combine_map_fst {X Y} (xs : list X) (ys : list Y) :
  length ys = length xs -> map fst (combine xs ys) = xs.
Proof.
  revert ys; induction xs as [|x xs IH]; intros [|y ys] H; simpl in *;
    try reflexivity; try discriminate.
  f_equal. apply IH. lia.
Qed.

(** X20.  With a provider that answers every request and a budget of at least
    one attempt, ingestion sends one embedding request per chunk, in the
    order of the chunks and as documents; every chunk is then in the
    store, one new record per chunk when none of the ids was there, and
    only after that does the call end in [NameError]. *)
Theorem ingestion_embeds_and_stores_every_chunk :
  forall (self : RAGOrchestrator) (pdf_path : pystr) (w : world)
         (chunks : list chunk),
    extract_chunks (pdf_processor self) pdf_path = Ok chunks ->
    chunks <> [] ->
    0 < eg_max_retries (embedding_generator self) ->
    (forall tr content, exists v,
        embed_content tr (eg_model (embedding_generator self)) content
                      (lit "retrieval_document") = Ok v) ->
    exists w',
      process_and_store_pdf self pdf_path w = (Raise name_error_stats, w')
      /\ trace w' = trace w ++ map (embed_event self) chunks
      /\ Forall (fun c => In (chunk_id_of c) (map id (db w'))) chunks
      /\ ((forall c, In c chunks -> ~ In (chunk_id_of c) (map id (db w))) ->
          length (db w') = (length (db w) + length chunks)%nat).
Proof.
  intros self pdf_path w chunks Hext Hne Hm Hans.
  destruct (embed_loop_answers self chunks Hm Hans [] w) as (embs & Hrun & Hlen).
  simpl in Hrun.
  eexists. split.
  { unfold process_and_store_pdf. rewrite Hext.
    destruct chunks as [|c cs]; [congruence|].
    unfold bind. rewrite Hrun. unfold store_chunks_batch.
    rewrite store_each_run. reflexivity. }
  cbn [db trace]. split; [reflexivity|].
  pose proof (combine_map_fst chunks embs Hlen) as Hfst.
  split.
  - apply Forall_forall. intros c Hc. rewrite <- Hfst in Hc.
    apply in_map_iff in Hc as (p & <- & Hp).
    now apply fold_write_pair_stores_ids.
  - intros Hnew. rewrite fold_write_pair_new_ids.
    + rewrite length_combine, Hlen. lia.
    + rewrite <- (map_map fst chunk_id_of), Hfst.
      apply (well_formed_ids_distinct pdf_path).
      exact (extract_chunks_well_formed _ _ _ Hext).
    + intros p Hp. apply Hnew. rewrite <- Hfst. now apply in_map.
Qed.

(** X21.  A document none of whose paragraphs is longer than the minimum gives
    the "no chunks" report: no request is sent and nothing is written. *)
Theorem ingestion_of_short_paragraphs_does_nothing :
  forall (self : RAGOrchestrator) (pdf_path : pystr) (w : world)
         (result : document) (full_text : pystr),
    convert pdf_path = Ok result ->
    export_to_markdown result = Ok full_text ->
    Forall (fun para => len (strip para) <= min_chunk_length (pdf_processor self))
           (split_blank_lines full_text) ->
    process_and_store_pdf self pdf_path w
    = (Ok {| success := false;
             message := lit "No chunks extracted from PDF";
             chunks_processed := 0;
             statistics := None |}, w).
Proof.
  intros self pdf_path w result full_text Hconv Hmd Hshort.
  assert (Hext : extract_chunks (pdf_processor self) pdf_path = Ok []).
  { unfold extract_chunks. rewrite Hconv, Hmd. f_equal.
    pose proof (paragraphs_loop_texts (pdf_processor self) pdf_path
                  (split_blank_lines full_text) [] 0) as H.
    simpl in H.
    assert (Hnone : filter (keeps (pdf_processor self))
                      (map strip (split_blank_lines full_text)) = []).
    { clear H. induction Hshort as [|p ps Hp _ IH]; simpl; [reflexivity|].
      unfold keeps at 1.
      replace (len (strip p) >? min_chunk_length (pdf_processor self)) with false
        by (symmetry; rewrite Z.gtb_ltb; apply Z.ltb_ge; exact Hp).
      now rewrite andb_false_r. }
    rewrite Hnone in H. now apply map_eq_nil in H. }
  unfold process_and_store_pdf. now rewrite Hext.
Qed.

(** ** The query path, step by step *)

Definition effective_top_k (self : RAGOrchestrator) (top_k : option Z) : Z :=
  match top_k with None => top_k_results (config self) | Some k => k end.

(** X22.  When the search finds chunks and the model answers at the first
    attempt, [query] sends exactly one generation request, whose prompt is
    built from the question and the retrieved chunks, and returns the
    model's text with those chunks as sources. *)
Theorem query_answers_from_the_retrieved_chunks :
  forall (self : RAGOrchestrator) (question : pystr) (top_k : option Z)
         (w w1 : world) (query_embedding : option (list num))
         (h : hit) (hs : list hit) (text : pystr),
    generate_query_embedding (embedding_generator self) question w
      = (Ok query_embedding, w1) ->
    fst (search_similar query_embedding (effective_top_k self top_k) w1)
      = Ok (h :: hs) ->
    0 < rg_max_retries (response_generator self) ->
    let prompt := _create_prompt question (_build_context (h :: hs)) in
    generate_content (trace w1) (rg_model_name (response_generator self)) prompt
      = Ok text ->
    query self question top_k w
    = (Ok {| question_of := question;
             answer := Some text;
             sources := h :: hs |},
       World (db w1)
             (trace w1 ++ [EvGenerate (rg_model_name (response_generator self))
                                      prompt])).
Proof.
  intros self question top_k w w1 qe h hs text Hemb Hsearch Hm prompt Hgen.
  unfold query, bind. rewrite Hemb. fold (effective_top_k self top_k).
  unfold search_similar in *.
  destruct (_ <? 0); simpl in Hsearch; [discriminate|]. rewrite Hsearch.
  unfold ResponseGenerator_generate, generate_call. fold prompt.
  now rewrite (generate_first_attempt _ _ _ w1 text Hm Hgen).
Qed.

(** X23.  [query] stops at the first step that fails and raises its error: a
    failed query embedding is followed by no search and no generation
    request, a failed search by no generation request, and a failed
    generation is raised as it is. *)
Theorem query_raises_the_first_failure :
  forall (self : RAGOrchestrator) (question : pystr) (top_k : option Z)
         (w : world) (e : exn),
    (forall w1,
        generate_query_embedding (embedding_generator self) question w
          = (Raise e, w1) ->
        query self question top_k w = (Raise e, w1)
        /\ generate_calls (trace w1) = generate_calls (trace w))
    /\ (forall w1 query_embedding,
           generate_query_embedding (embedding_generator self) question w
             = (Ok query_embedding, w1) ->
           fst (search_similar query_embedding (effective_top_k self top_k) w1)
             = Raise e ->
           query self question top_k w = (Raise e, w1)
           /\ generate_calls (trace w1) = generate_calls (trace w))
    /\ (forall w1 w2 query_embedding h hs,
           generate_query_embedding (embedding_generator self) question w
             = (Ok query_embedding, w1) ->
           fst (search_similar query_embedding (effective_top_k self top_k) w1)
             = Ok (h :: hs) ->
           ResponseGenerator_generate (response_generator self) question
                                      (h :: hs) w1 = (Raise e, w2) ->
           query self question top_k w = (Raise e, w2)).
Proof.
  intros self question top_k w e.
  assert (Hquiet : forall r w1,
             generate_query_embedding (embedding_generator self) question w
               = (r, w1) ->
             generate_calls (trace w1) = generate_calls (trace w)).
  { intros r w1 H.
    unfold generate_query_embedding, EmbeddingGenerator_generate, embed_call in H.
    now apply retry_loop_quiet in H as [H _]. }
  split; [|split].
  - intros w1 Hemb. split; [|now apply (Hquiet _ _ Hemb)].
    unfold query, bind. now rewrite Hemb.
  - intros w1 qe Hemb Hsearch. split; [|now apply (Hquiet _ _ Hemb)].
    unfold query, bind. rewrite Hemb. fold (effective_top_k self top_k).
    unfold search_similar in *.
    destruct (_ <? 0); simpl in Hsearch.
    + now injection Hsearch as ->.
    + now rewrite Hsearch.
  - intros w1 w2 qe h hs Hemb Hsearch Hgen.
    unfold query, bind. rewrite Hemb. fold (effective_top_k self top_k).
    unfold search_similar in *.
    destruct (_ <? 0); simpl in Hsearch; [discriminate|]. rewrite Hsearch.
    now rewrite Hgen.
Qed.

(** X24.  Whatever [query] returns, it echoes the question, names at most
    [top_k] sources, each of them read from the store, and answers with
    the fixed sentence when it names none. *)
Theorem query_result_is_grounded_in_the_store :
  forall (self : RAGOrchestrator) (question : pystr) (top_k : option Z)
         (w w' : world) (res : query_result),
    (forall l, Permutation (scan l) l) ->
    query self question top_k w = (Ok res, w') ->
    question_of res = question
    /\ Z.of_nat (length (sources res)) <= effective_top_k self top_k
    /\ Forall (fun h => exists c,
                 In c (db w) /\ h = hit_of c (hit_similarity h)) (sources res)
    /\ (sources res = [] -> answer res = Some no_information_answer).
Proof.
  intros self question top_k w w' res Hscan H.
  unfold query, bind in H. fold (effective_top_k self top_k) in H.
  destruct (generate_query_embedding _ _ w) as [[qe|e] w1] eqn:Hemb;
    [|discriminate].
  assert (Hdb : db w1 = db w).
  { unfold generate_query_embedding, EmbeddingGenerator_generate, embed_call in Hemb.
    now apply retry_loop_quiet in Hemb as [_ Hdb]. }
  destruct (search_similar qe _ w1) as [[hits|e] w2] eqn:Hsearch;
    [|discriminate].
  pose proof (search_hits_at_most_k _ _ _ _ _ Hsearch) as Hlen.
  pose proof (search_hits_stored _ _ _ _ _ Hscan Hsearch) as Hall.
  assert (Hfrom : Forall (fun h => exists c,
                            In c (db w) /\ h = hit_of c (hit_similarity h)) hits).
  { rewrite Forall_forall in *. intros h Hh.
    destruct (Hall h Hh) as (c & Hc & _ & Heq). exists c.
    rewrite <- Hdb. now split. }
  destruct hits as [|h hs].
  - injection H as <- _. simpl. split; [reflexivity|]. split; [exact Hlen|].
    split; [constructor | reflexivity].
  - destruct (ResponseGenerator_generate _ _ _ w2) as [[a|e] w3]; [|discriminate].
    injection H as <- _. simpl. split; [reflexivity|]. split; [exact Hlen|].
    split; [exact Hfrom | discriminate].
Qed.

(** ** What the prompt contains *)

Lemma starts_with_app (x rest : pystr) : starts_with x (x ++ rest) = true.
Proof.
  induction x as [|c x IH]; simpl; [reflexivity|].
  now rewrite N.eqb_refl, IH.
Qed.

Lemma contains_unfold (needle hay : pystr) :
  contains needle hay
  = starts_with needle hay
    || match hay with [] => false | _ :: rest => contains needle rest end.
Proof. destruct hay; reflexivity. Qed.

Lemma contains_infix (x a b : pystr) : contains x (a ++ x ++ b) = true.
Proof.
  induction a as [|c a IH].
  - rewrite app_nil_l, contains_unfold, starts_with_app. reflexivity.
  - rewrite <- app_comm_cons, contains_unfold, IH. apply orb_true_r.
Qed.

Lemma join_infix (sep part : pystr) (parts : list pystr) :
  In part parts -> exists a b, join sep parts = a ++ part ++ b.
Proof.
  induction parts as [|p rest IH]; intros Hin; [destruct Hin|].
  destruct Hin as [->|Hin].
  - destruct rest as [|p' rest'].
    + exists [], []. simpl. now rewrite app_nil_r.
    + exists [], (sep ++ join sep (p' :: rest')). reflexivity.
  - destruct (IH Hin) as (a & b & Hab). destruct rest as [|p' rest'];
      [destruct Hin|].
    exists (p ++ sep ++ a), b.
    change (join sep (p :: p' :: rest'))
      with (p ++ sep ++ join sep (p' :: rest')).
    rewrite Hab. now rewrite <- !app_assoc.
Qed.

Lemma contains_in_middle (x p a b r : pystr) :
  contains x (p ++ (a ++ x ++ b) ++ r) = true.
Proof.
  replace (p ++ (a ++ x ++ b) ++ r) with ((p ++ a) ++ x ++ (b ++ r))
    by (now rewrite <- !app_assoc).
  apply contains_infix.
Qed.

Definition prompt_head : pystr :=
  lit "You are a helpful AI assistant answering questions based on provided context."
    ++ nl ++ nl ++ lit "Context Information:" ++ nl.

Lemma create_prompt_parts (query context : pystr) :
  exists tail,
    _create_prompt query context
    = prompt_head ++ context ++ (nl ++ nl ++ lit "User Question: ") ++ query ++ tail.
Proof.
  eexists. unfold _create_prompt, prompt_head.
  repeat rewrite <- app_assoc. reflexivity.
Qed.

Lemma labeled_blocks_has_block (results : list hit) (c : hit) :
  In c results ->
  forall rank, exists i,
    In (context_label i (hit_source c) (hit_chunk_index c)
          ++ nl ++ hit_text c ++ nl)
       (labeled_blocks rank results).
Proof.
  induction results as [|x l IH]; intros Hin rank; [destruct Hin|].
  destruct Hin as [->|Hin].
  - exists rank. now left.
  - destruct (IH Hin (rank + 1)) as (i & Hi). exists i. now right.
Qed.

(** X25.  The prompt built for a question and retrieved chunks contains the
    question and, for every retrieved chunk, its source name and its whole
    text. *)
Theorem prompt_contains_question_and_every_chunk :
  forall (query : pystr) (chunks : list hit) (c : hit),
    In c chunks ->
    let prompt := _create_prompt query (_build_context chunks) in
    contains query prompt = true
    /\ contains (hit_text c) prompt = true
    /\ contains (hit_source c) prompt = true.
Proof.
  intros query chunks c Hin prompt. subst prompt.
  destruct (create_prompt_parts query (_build_context chunks)) as (tail & Hp).
  rewrite Hp.
  assert (Hblock : exists i a b,
             _build_context chunks
             = a ++ (context_label i (hit_source c) (hit_chunk_index c)
                       ++ nl ++ hit_text c ++ nl) ++ b).
  { destruct chunks as [|c0 cs]; [destruct Hin|].
    unfold _build_context. rewrite context_loop_blocks. cbn [app].
    destruct (labeled_blocks_has_block _ c Hin 1) as (i & Hi).
    destruct (join_infix nl _ _ Hi) as (a & b & Hab). now exists i, a, b. }
  destruct Hblock as (i & a & b & Hctx).
  split; [|split].
  - replace (prompt_head ++ _build_context chunks
               ++ (nl ++ nl ++ lit "User Question: ") ++ query ++ tail)
      with ((prompt_head ++ _build_context chunks
               ++ (nl ++ nl ++ lit "User Question: ")) ++ query ++ tail)
      by (now rewrite <- !app_assoc).
    apply contains_infix.
  - rewrite Hctx.
    replace (a ++ (context_label i (hit_source c) (hit_chunk_index c)
                     ++ nl ++ hit_text c ++ nl) ++ b)
      with ((a ++ context_label i (hit_source c) (hit_chunk_index c) ++ nl)
              ++ hit_text c ++ (nl ++ b))
      by (now rewrite <- !app_assoc).
    apply contains_in_middle.
  - rewrite Hctx. unfold context_label.
    replace (a ++ ((lit "[Context " ++ of_int i ++ lit " - Source: "
                      ++ hit_source c ++ lit ", Chunk "
                      ++ of_int (hit_chunk_index c) ++ lit "]")
                     ++ nl ++ hit_text c ++ nl) ++ b)
      with ((a ++ lit "[Context " ++ of_int i ++ lit " - Source: ")
              ++ hit_source c
              ++ (lit ", Chunk " ++ of_int (hit_chunk_index c) ++ lit "]"
                    ++ nl ++ hit_text c ++ nl ++ b))
      by (now rewrite <- !app_assoc).
    apply contains_in_middle.
Qed.

(** ** The handlers of app.py *)

Lemma get_database_status_runs (w : world) :
  exists status, get_database_status w = (Ok status, w).
Proof.
  unfold get_database_status, try_except, bind, get_database_info,
    get_chunk_count, get_all_sources, ret. simpl. now eexists.
Qed.

Definition no_chunks_report : ingest_report :=
  {| success := false;
     message := lit "No chunks extracted from PDF";
     chunks_processed := 0;
     statistics := None |}.

Lemma process_and_store_pdf_returns_only_no_chunks (self : RAGOrchestrator)
    (pdf_path : pystr) (w w' : world) (report : ingest_report) :
  process_and_store_pdf self pdf_path w = (Ok report, w') ->
  report = no_chunks_report /\ w' = w.
Proof.
  intros H. unfold process_and_store_pdf in H.
  destruct (extract_chunks _ _) as [[|c cs]|e]; try discriminate.
  - injection H as <- <-. now split.
  - unfold bind in H.
    destruct (embed_loop _ _ _ _) as [[embeddings|e] w1]; [|discriminate].
    unfold store_chunks_batch in H. rewrite store_each_run in H. discriminate.
Qed.

(** X26.  The upload handler never raises and never shows the success message:
    it asks for a file, or reports that no chunk was extracted, or shows
    the text of the exception that ended the ingestion; the second value
    is the database status at that moment. *)
Theorem upload_handler_never_reports_success :
  forall (rag : RAGOrchestrator) (pdf_file : option pystr) (w : world),
    exists msg status w',
      upload_and_process_pdf rag pdf_file w = (Ok (msg, status), w')
      /\ get_database_status w' = (Ok status, w')
      /\ (msg = cross_mark ++ lit " Please upload a PDF file"
          \/ msg = cross_mark ++ lit " **Processing Failed:** "
                     ++ lit "No chunks extracted from PDF"
          \/ exists e, msg = cross_mark ++ lit " **Error processing PDF:** "
                               ++ exn_msg e).
Proof.
  intros rag pdf_file w. unfold upload_and_process_pdf.
  destruct pdf_file as [pdf_path|].
  - unfold try_except, bind at 1.
    destruct (process_and_store_pdf rag pdf_path w) as [[report|e] w1] eqn:Hrun.
    + apply process_and_store_pdf_returns_only_no_chunks in Hrun as [-> ->].
      cbn [success no_chunks_report message]. unfold bind, ret.
      destruct (get_database_status_runs w) as (status & Hst). rewrite Hst.
      exists (cross_mark ++ lit " **Processing Failed:** "
                ++ lit "No chunks extracted from PDF"), status, w.
      split; [reflexivity|]. split; [exact Hst|]. right; now left.
    + unfold bind, ret.
      destruct (get_database_status_runs w1) as (status & Hst). rewrite Hst.
      exists (cross_mark ++ lit " **Error processing PDF:** " ++ exn_msg e),
        status, w1.
      split; [reflexivity|]. split; [exact Hst|]. right; right. now exists e.
  - unfold bind, ret.
    destruct (get_database_status_runs w) as (status & Hst). rewrite Hst.
    exists (cross_mark ++ lit " Please upload a PDF file"), status, w.
    split; [reflexivity|]. split; [exact Hst|]. now left.
Qed.

(** X27.  For a PDF that gives chunks which are all embedded, the upload handler
    shows "name 'stats' is not defined" although the chunks have been
    written to the store. *)
Theorem upload_of_a_good_pdf_shows_the_name_error :
  forall (rag : RAGOrchestrator) (pdf_path : pystr) (w w1 : world)
         (chunks : list chunk) (embeddings : list (option (list num))),
    extract_chunks (pdf_processor rag) pdf_path = Ok chunks ->
    chunks <> [] ->
    embed_loop rag chunks [] w = (Ok embeddings, w1) ->
    exists status w',
      upload_and_process_pdf rag (Some pdf_path) w
      = (Ok (cross_mark ++ lit " **Error processing PDF:** "
               ++ lit "name 'stats' is not defined", status), w')
      /\ db w' = fold_left write_pair (combine chunks embeddings) (db w).
Proof.
  intros rag pdf_path w w1 chunks embeddings Hext Hne Hemb.
  assert (Hrun : process_and_store_pdf rag pdf_path w
                 = (Raise name_error_stats,
                    World (fold_left write_pair (combine chunks embeddings) (db w1))
                          (trace w1))).
  { unfold process_and_store_pdf. rewrite Hext.
    destruct chunks as [|c cs]; [congruence|].
    unfold bind. rewrite Hemb. unfold store_chunks_batch.
    now rewrite store_each_run. }
  assert (Hdb : db w1 = db w).
  { pose proof (embed_loop_keeps_db rag chunks [] w) as H. now rewrite Hemb in H. }
  unfold upload_and_process_pdf, try_except, bind at 1. rewrite Hrun.
  unfold bind, ret.
  destruct (get_database_status_runs
              (World (fold_left write_pair (combine chunks embeddings) (db w1))
                     (trace w1))) as (status & Hst).
  rewrite Hst. eexists _, _. split; [reflexivity|]. cbn [db]. now rewrite Hdb.
Qed.

(** X28.  The query handler never raises; for a question that is missing, empty
    or only white space it asks for a question and sends no request. *)
Theorem query_handler_never_raises :
  forall (rag : RAGOrchestrator) (question : option pystr) (top_k : num)
         (w : world),
    (exists answer_text sources_text w',
        query_rag_system rag question top_k w
        = (Ok (answer_text, sources_text), w'))
    /\ (is_blank question = true ->
        query_rag_system rag question top_k w
        = (Ok (cross_mark ++ lit " Please enter a question", []), w)).
Proof.
  intros rag question top_k w. unfold query_rag_system.
  destruct question as [q|]; [|split; [now eexists _, _, _ | reflexivity]].
  destruct (is_blank (Some q)) eqn:Eb.
  - split; [now eexists _, _, _ | reflexivity].
  - split; [|discriminate]. unfold try_except.
    destruct (py_int top_k) as [k|e]; [|now eexists _, _, _].
    unfold bind at 1.
    destruct (query rag q (Some k) w) as [[res|e] w1];
      now eexists _, _, _.
Qed.

(** X29.  The delete handler never raises.  For a blank name it deletes nothing;
    otherwise it deletes the chunks whose source is the name without its
    surrounding white space, and its message repeats the name as typed. *)
Theorem delete_handler_deletes_the_stripped_name :
  forall (document_name : option pystr) (w : world),
    exists msg status w',
      delete_document_handler document_name w = (Ok (msg, status), w')
      /\ get_database_status w' = (Ok status, w')
      /\ (is_blank document_name = true ->
          msg = cross_mark ++ lit " Please enter a document name" /\ w' = w)
      /\ (forall name,
             document_name = Some name ->
             is_blank document_name = false ->
             msg = check_mark ++ lit " Successfully deleted all chunks from: "
                     ++ name
             /\ db w' = filter (fun c => negb (has_source (strip name) c)) (db w)).
Proof.
  intros document_name w. unfold delete_document_handler.
  destruct document_name as [name|].
  - destruct (is_blank (Some name)) eqn:Eb.
    + unfold bind, ret.
      destruct (get_database_status_runs w) as (status & Hst). rewrite Hst.
      eexists _, status, w. split; [reflexivity|]. split; [exact Hst|].
      split; [now split | discriminate].
    + unfold try_except, bind, delete_document, bind, delete_by_source, ret.
      match goal with
      | |- context [get_database_status ?w1] =>
          destruct (get_database_status_runs w1) as (status & Hst); rewrite Hst
      end.
      eexists _, status, _. split; [reflexivity|]. split; [exact Hst|].
      split; [discriminate|].
      intros n Hn _. injection Hn as <-. now split.
  - unfold bind, ret.
    destruct (get_database_status_runs w) as (status & Hst). rewrite Hst.
    eexists _, status, w. split; [reflexivity|]. split; [exact Hst|].
    split; [now split | discriminate].
Qed.

Lemma documents_loop_app (docs : list pystr) (status : pystr) :
  exists tail, documents_loop docs status = status ++ tail
               /\ forall d, In d docs -> contains d tail = true.
Proof.
  revert status. induction docs as [|doc rest IH]; intros status;
    cbn [documents_loop].
  - exists []. split; [now rewrite app_nil_r | intros d []].
  - destruct (IH (status ++ lit "  " ++ [8226%N] ++ lit " " ++ doc ++ nl))
      as (tail & Htail & Hin).
    exists ((lit "  " ++ [8226%N] ++ lit " " ++ doc ++ nl) ++ tail). split.
    + rewrite Htail. now rewrite <- !app_assoc.
    + intros d [<-|Hd].
      * replace ((lit "  " ++ [8226%N] ++ lit " " ++ doc ++ nl) ++ tail)
          with ((lit "  " ++ [8226%N] ++ lit " ") ++ doc ++ (nl ++ tail))
          by (now rewrite <- !app_assoc).
        apply contains_infix.
      * rewrite <- (app_nil_l tail) at 1.
        specialize (Hin d Hd).
        clear -Hin. induction (lit "  " ++ [8226%N] ++ lit " " ++ doc ++ nl)
          as [|c l IHl]; [exact Hin|].
        rewrite <- app_comm_cons, contains_unfold, IHl. apply orb_true_r.
Qed.

(** X30.  The database status never fails and changes nothing; it names every
    source that has a stored chunk, and for the empty store it says that
    there are no documents yet. *)
Theorem database_status_names_every_source :
  forall (w : world),
    (forall l, Permutation (scan l) l) ->
    exists status,
      get_database_status w = (Ok status, w)
      /\ (forall c, In c (db w) -> contains (source c) status = true)
      /\ (db w = [] ->
          status = status_header {| info_total_chunks := 0;
                                    info_total_documents := 0;
                                    info_documents := [] |}
                     ++ lit "  (No documents yet)" ++ nl).
Proof.
  intros w Hscan.
  remember (order_by_str (distinct (map source (scan (db w))))) as docs eqn:Ed.
  set (info := {| info_total_chunks := Z.of_nat (length (db w));
                  info_total_documents := Z.of_nat (length docs);
                  info_documents := docs |}).
  exists (match docs with
          | [] => status_header info ++ lit "  (No documents yet)" ++ nl
          | _ => documents_loop docs (status_header info)
          end).
  split.
  { cbv [get_database_status try_except bind get_database_info
           get_chunk_count get_all_sources ret info_documents].
    rewrite <- Ed. subst info. now destruct docs. }
  split.
  - intros c Hc.
    assert (Hin : In (source c) docs)
      by (rewrite Ed; apply (listed_sources_membership _ _ Hscan); now exists c).
    clearbody info. clear Ed.
    destruct docs as [|d ds]; [destruct Hin|].
    destruct (documents_loop_app (d :: ds) (status_header info))
      as (tail & -> & Htail).
    specialize (Htail _ Hin). clear -Htail.
    induction (status_header info) as [|x l IH]; [exact Htail|].
    rewrite <- app_comm_cons, contains_unfold, IH. apply orb_true_r.
  - intros Hempty. subst info. rewrite Hempty in Ed.
    assert (Hs : scan [] = []) by (apply Permutation_nil, Permutation_sym, Hscan).
    rewrite Hs in Ed. simpl in Ed. subst docs. now rewrite Hempty.
Qed.

End Pipeline.

Arguments World {num} db trace.
Arguments Node {num} id text source chunk_index embedding metadata.
Arguments Hit {num} hit_id hit_text hit_source hit_chunk_index hit_similarity.
Arguments EvEmbed {num} model content task_type.
Arguments EvGenerate {num} model prompt.
Arguments EvSleep {num} seconds.
Arguments EvPrint {num} line.
Arguments db {num} w.
Arguments trace {num} w.

(** * Worked instances

    The model run on integers in place of floats, with providers that
    answer the same way at every call. *)

Module Sample.

Definition add := Z.add.
Definition mul := Z.mul.
Definition of_int (z : Z) : Z := z.
Definition geb := Z.geb.
Definition no_jitter (_ : list (event Z)) : Z := 0.
Definition str_of_dict (_ : list (pystr * pyval)) : pystr := lit "{...}".
Definition path_stem (_ : pystr) : pystr := lit "doc".
Definition path_name (_ : pystr) : pystr := lit "doc.pdf".

(** The database hands out its nodes in creation order, or in the opposite
    order. *)
Definition scan_created (l : list (node Z)) : list (node Z) := l.
Definition scan_latest_first (l : list (node Z)) : list (node Z) := rev l.

Definition too_many_requests : exn :=
  Exn (lit "ResourceExhausted") (lit "429 Too Many Requests").

Definition embed_busy (_ : list (event Z)) (_ _ _ : pystr) : outcome (list Z) :=
  Raise too_many_requests.
Definition embed_unit (_ : list (event Z)) (_ _ _ : pystr) : outcome (list Z) :=
  Ok [1; 0].
Definition generate_paris (_ : list (event Z)) (_ _ : pystr) : outcome pystr :=
  Ok (lit "Paris.").

Definition cfg : Config :=
  Config_init (lit "key") (lit "gemini-embedding-001") (lit "gemini-2.5-flash-lite").
Definition rag : RAGOrchestrator := RAGOrchestrator_init cfg.

Definition empty_world : world Z := World [] [].

Definition paris : chunk :=
  Chunk (lit "doc_chunk_0") (lit "Paris is the capital of France.")
        (lit "doc.pdf") 0
        [(lit "length", PyInt 31); (lit "extraction_method", PyStr (lit "markdown"))].
Definition lyon : chunk :=
  Chunk (lit "doc_chunk_1") (lit "Lyon is a city on the river Rhone.")
        (lit "doc.pdf") 1
        [(lit "length", PyInt 34); (lit "extraction_method", PyStr (lit "markdown"))].

Definition paris_node : node Z :=
  Node (lit "doc_chunk_0") (lit "Paris is the capital of France.")
       (lit "doc.pdf") 0 (Some [1; 0]) (lit "{...}").
Definition lyon_node : node Z :=
  Node (lit "doc_chunk_1") (lit "Lyon is a city on the river Rhone.")
       (lit "doc.pdf") 1 (Some [1; 0]) (lit "{...}").

(** The store after ingesting first [paris], then [lyon], both with the
    vector [[1; 0]]. *)
Definition two_chunks : world Z :=
  snd (store_chunks_batch Z str_of_dict [paris; lyon]
         [Some [1; 0]; Some [1; 0]] empty_world).

(** A document whose markdown is one paragraph of exactly 20 characters,
    and one with a long and a short paragraph. *)
Definition twenty : pystr := lit "Short note, 20 chars".
Definition doc_twenty : document :=
  {| export_to_markdown := Ok twenty; iterate_items := [] |}.
Definition convert_twenty (_ : pystr) : outcome document := Ok doc_twenty.

Definition doc_paris : document :=
  {| export_to_markdown :=
       Ok (lit "Paris is the capital of France." ++ [10; 10]%N ++ lit "Too short.");
     iterate_items := [] |}.
Definition convert_paris (_ : pystr) : outcome document := Ok doc_paris.

End Sample.



Lemma sample_scans_permute :
  (forall l, Permutation (Sample.scan_created l) l)
  /\ (forall l, Permutation (Sample.scan_latest_first l) l).
Proof.
  split; intros l; [apply Permutation_refl|].
  apply Permutation_sym, Permutation_rev.
Qed.

Example two_chunks_db :
  db Sample.two_chunks = [Sample.paris_node; Sample.lyon_node].
Proof. reflexivity. Qed.


(** A query against the empty store. *)
Lemma query_without_results_skips_generation_witness :
  query Z 0 Sample.add Sample.mul Sample.of_int Sample.embed_unit
    Sample.generate_paris Sample.no_jitter Sample.scan_created Sample.geb
    Sample.rag (lit "What is the capital of France?") None Sample.empty_world
  = (Ok {| question_of := lit "What is the capital of France?";
           answer := Some no_information_answer;
           sources := [] |},
     World []
       [EvEmbed (lit "gemini-embedding-001")
                (lit "What is the capital of France?") (lit "retrieval_query")])
  /\ generate_calls Z
       [EvEmbed (lit "gemini-embedding-001")
                (lit "What is the capital of France?") (lit "retrieval_query")]
     = generate_calls Z [].
Proof.
  apply (query_without_results_skips_generation Z 0 Sample.add Sample.mul
           Sample.of_int Sample.embed_unit Sample.generate_paris
           Sample.no_jitter Sample.scan_created Sample.geb Sample.rag
           (lit "What is the capital of France?") None Sample.empty_world
           (World []
              [EvEmbed (lit "gemini-embedding-001")
                 (lit "What is the capital of France?") (lit "retrieval_query")])
           (Some [1; 0])); reflexivity.
Defined.

(** Deleting the two chunks of ["doc.pdf"], and deleting a source that is
    not there: both calls return [None], not a number. *)
Lemma delete_by_source_returns_none_not_count :
  length (db Sample.two_chunks) = 2%nat
  /\ length (db (snd (delete_by_source Z (lit "doc.pdf") Sample.two_chunks))) = 0%nat
  /\ fst (delete_by_source Z (lit "doc.pdf") Sample.two_chunks) = Ok PyNone
  /\ fst (delete_by_source Z (lit "other.pdf") Sample.two_chunks) = Ok PyNone.
Proof. repeat split. Qed.

Lemma delete_by_source_prints_count_returns_none_witness :
  (length (db Sample.two_chunks)
   - length (db (snd (delete_by_source Z (lit "other.pdf") Sample.two_chunks))))%nat
  = 0%nat
  /\ db (snd (delete_by_source Z (lit "other.pdf") Sample.two_chunks))
     = db Sample.two_chunks.
Proof.
  pose proof (delete_by_source_prints_count_returns_none Z (lit "other.pdf")
                Sample.two_chunks) as (_ & _ & _ & _ & H).
  apply H. rewrite two_chunks_db.
  intros [E|[E|[]]]; discriminate E.
Defined.

(** Top-1 of a store with two chunks. *)
Lemma search_similar_returns_min_k_count_witness :
  exists (hits : list (hit Z)) (count : Z),
    search_similar Z 0 Sample.add Sample.mul Sample.scan_created Sample.geb
      (Some [1; 0]) 1 Sample.two_chunks = (Ok hits, Sample.two_chunks)
    /\ get_chunk_count Z Sample.two_chunks = (Ok count, Sample.two_chunks)
    /\ Z.of_nat (length hits) = Z.min 1 count
    /\ (db Sample.two_chunks = [] -> hits = []).
Proof.
  apply (search_similar_returns_min_k_count Z 0 Sample.add Sample.mul
           Sample.scan_created Sample.geb [1; 0] 1 Sample.two_chunks).
  - exact (proj1 sample_scans_permute).
  - rewrite two_chunks_db.
    repeat constructor; exists [1; 0]; split; constructor.
  - lia.
Defined.



(** Writing ["doc_chunk_0"] twice more into the store of two chunks. *)
Lemma upsert_keeps_one_record_with_latest_fields_witness :
  filter (has_id Z (lit "doc_chunk_0"))
    (db (snd (replay Z Sample.str_of_dict (lit "doc_chunk_0")
                [(Sample.lyon, Some [0; 1]); (Sample.paris, Some [0; 2])]
                Sample.two_chunks)))
  = [Node (lit "doc_chunk_0") (lit "Paris is the capital of France.")
          (lit "doc.pdf") 0 (Some [0; 2]) (lit "{...}")]
  /\ length (db (snd (replay Z Sample.str_of_dict (lit "doc_chunk_0")
                        [(Sample.lyon, Some [0; 1]); (Sample.paris, Some [0; 2])]
                        Sample.two_chunks)))
     = 2%nat.
Proof.
  assert (Hnd : NoDup (map (id Z) (db Sample.two_chunks))).
  { rewrite two_chunks_db. repeat constructor.
    - intros [E|[]]; discriminate E.
    - intros []. }
  pose proof (upsert_keeps_one_record_with_latest_fields Z Sample.str_of_dict
                (lit "doc_chunk_0") [(Sample.lyon, Some [0; 1])]
                Sample.paris (Some [0; 2]) Sample.two_chunks Hnd)
    as (_ & Hone & _ & _ & Hlen).
  split; [exact Hone|].
  apply Hlen. rewrite two_chunks_db. now left.
Defined.

(** Two chunks and one embedding. *)
Lemma store_chunks_batch_skips_surplus_chunks_witness :
  fst (store_chunks_batch Z Sample.str_of_dict [Sample.paris; Sample.lyon]
         [Some [1; 0]] Sample.empty_world) = Ok PyNone
  /\ In Sample.paris_node
        (db (snd (store_chunks_batch Z Sample.str_of_dict
                    [Sample.paris; Sample.lyon] [Some [1; 0]] Sample.empty_world)))
  /\ ~ In (chunk_id_of Sample.lyon)
        (map (id Z)
           (db (snd (store_chunks_batch Z Sample.str_of_dict
                       [Sample.paris; Sample.lyon] [Some [1; 0]]
                       Sample.empty_world)))).
Proof.
  destruct (store_chunks_batch_skips_surplus_chunks Z Sample.str_of_dict
              [Sample.paris; Sample.lyon] [Some [1; 0]] Sample.empty_world)
    as (Hok & _ & Hpos & Hsurplus).
  - simpl. lia.
  - split; [exact Hok|]. split.
    + apply (Hpos 0%nat Sample.paris (Some [1; 0]) eq_refl eq_refl).
      intros j c' Hj. simpl in Hj. lia.
    + apply (Hsurplus Sample.lyon).
      * now left.
      * intros [].
      * intros [E|[]]. discriminate E.
Defined.

(** A paragraph of exactly the minimum length, 20 characters, is not
    extracted. *)
Lemma paragraph_of_minimum_length_is_dropped :
  min_chunk_length (pdf_processor Sample.rag) = 20
  /\ split_blank_lines Sample.twenty = [Sample.twenty]
  /\ strip Sample.twenty = Sample.twenty
  /\ truthy Sample.twenty = true
  /\ len Sample.twenty = 20
  /\ extract_chunks Sample.convert_twenty Sample.path_stem Sample.path_name
       (pdf_processor Sample.rag) (lit "doc.pdf") = Ok [].
Proof. repeat split. Qed.

Lemma extract_chunks_keeps_texts_longer_than_minimum_witness :
  exists chunks,
    extract_chunks Sample.convert_paris Sample.path_stem Sample.path_name
      (pdf_processor Sample.rag) (lit "doc.pdf") = Ok chunks
    /\ map chunk_text chunks = [lit "Paris is the capital of France."]
    /\ Forall (fun c => chunk_text c <> [] /\ 20 < len (chunk_text c)) chunks.
Proof.
  exact (extract_chunks_keeps_texts_longer_than_minimum
           Sample.convert_paris Sample.path_stem Sample.path_name
           (pdf_processor Sample.rag) (lit "doc.pdf") Sample.doc_paris eq_refl).
Defined.

(** Ingesting a document with one paragraph long enough, with a provider
    that embeds at the first attempt: the chunk is written and the call
    ends in [NameError]. *)
Lemma process_and_store_pdf_raises_name_error_witness :
  process_and_store_pdf Z Sample.add Sample.of_int Sample.embed_unit
    Sample.no_jitter Sample.str_of_dict Sample.convert_paris
    Sample.path_stem Sample.path_name Sample.rag (lit "doc.pdf")
    Sample.empty_world
  = (Raise name_error_stats,
     World [Sample.paris_node]
       [EvEmbed (lit "gemini-embedding-001")
                (lit "Paris is the capital of France.")
                (lit "retrieval_document")]).
Proof.
  apply (process_and_store_pdf_raises_name_error Z Sample.add Sample.of_int
           Sample.embed_unit Sample.no_jitter Sample.str_of_dict
           Sample.convert_paris Sample.path_stem Sample.path_name Sample.rag
           (lit "doc.pdf") Sample.empty_world
           (World []
              [EvEmbed (lit "gemini-embedding-001")
                       (lit "Paris is the capital of France.")
                       (lit "retrieval_document")])
           [Sample.paris] [Some [1; 0]]).
  - reflexivity.
  - discriminate.
  - reflexivity.
Defined.

(** The context of two results, and the block of the second one. *)
Lemma build_context_labels_results_in_rank_order_witness :
  _build_context Z [hit_of Z Sample.paris_node 1; hit_of Z Sample.lyon_node 1]
  = lit "[Context 1 - Source: doc.pdf, Chunk 0]" ++ nl
      ++ lit "Paris is the capital of France." ++ nl ++ nl
      ++ lit "[Context 2 - Source: doc.pdf, Chunk 1]" ++ nl
      ++ lit "Lyon is a city on the river Rhone." ++ nl
  /\ nth_error
       (labeled_blocks Z 1
          [hit_of Z Sample.paris_node 1; hit_of Z Sample.lyon_node 1]) 1
     = Some (lit "[Context 2 - Source: doc.pdf, Chunk 1]" ++ nl
               ++ lit "Lyon is a city on the river Rhone." ++ nl).
Proof.
  split.
  - exact (proj1 (proj2 (build_context_labels_results_in_rank_order Z))
             (hit_of Z Sample.paris_node 1) [hit_of Z Sample.lyon_node 1]).
  - exact (proj2 (proj2 (proj2 (build_context_labels_results_in_rank_order Z)))
             1 [hit_of Z Sample.paris_node 1; hit_of Z Sample.lyon_node 1] 1%nat
             (hit_of Z Sample.lyon_node 1) eq_refl).
Defined.

Example build_context_two_results :
  _build_context Z [hit_of Z Sample.paris_node 1; hit_of Z Sample.lyon_node 1]
  = lit "[Context 1 - Source: doc.pdf, Chunk 0]" ++ nl
      ++ lit "Paris is the capital of France." ++ nl ++ nl
      ++ lit "[Context 2 - Source: doc.pdf, Chunk 1]" ++ nl
      ++ lit "Lyon is a city on the river Rhone." ++ nl.
Proof. reflexivity. Qed.

(** The summary [get_chunk_statistics] computes for the two sample chunks
    (with integer division standing for [/]). *)
Example chunk_statistics_of_two_chunks :
  get_chunk_statistics Z Sample.of_int Z.div (fun x _ => x)
    [Sample.paris; Sample.lyon]
  = Ok {| total_chunks := 2; total_chars := 65; avg_chunk_size := 32;
          min_chunk_size := Some 31; max_chunk_size := Some 34 |}.
Proof. reflexivity. Qed.

(** Ingest, then query with the same vector: the top result is the first
    chunk, with similarity 1. *)
Example top_1_after_ingest :
  fst (search_similar Z 0 Sample.add Sample.mul Sample.scan_created Sample.geb
         (Some [1; 0]) 1 Sample.two_chunks)
  = Ok [hit_of Z Sample.paris_node 1].
Proof. reflexivity. Qed.

(** * Worked instances of the further properties *)

Module Sample2.

Definition str_leb (a b : pystr) : bool := (length a <=? length b)%nat.
Definition basename (p : pystr) : pystr := p.
Definition num_str (z : Z) : pystr := PyStr.of_int z.
Definition format_4f (z : Z) : pystr := PyStr.of_int z ++ lit ".0000".
Definition py_int (z : Z) : outcome Z := Ok z.

(** A configuration without any attempt. *)
Definition cfg_no_retry : Config :=
  {| gemini_api_key := lit "key";
     embedding_model := lit "gemini-embedding-001";
     generation_model := lit "gemini-2.5-flash-lite";
     chunk_min_length := 20;
     top_k_results := 5;
     max_retries := 0 |}.
Definition rag_no_retry : RAGOrchestrator := RAGOrchestrator_init cfg_no_retry.

(** A chunk of another document, stored with a vector of three numbers. *)
Definition notes_node : node Z :=
  Node (lit "notes_chunk_0") (lit "Notes taken during the meeting.")
       (lit "notes.pdf") 0 (Some [1; 0; 0]) (lit "{...}").

Definition with_notes : world Z :=
  World [Sample.paris_node; notes_node] [].

(** A chunk whose metadata records no length. *)
Definition unmeasured : chunk :=
  Chunk (lit "doc_chunk_2") (lit "A chunk that came from elsewhere.")
        (lit "doc.pdf") 2 [(lit "extraction_method", PyStr (lit "manual"))].

Definition question : pystr := lit "What is the capital of France?".

Definition asked : world Z :=
  World (db Sample.two_chunks)
        [EvEmbed (lit "gemini-embedding-001") question (lit "retrieval_query")].

End Sample2.

Lemma sample_str_leb_total (a b : pystr) :
  Sample2.str_leb a b = true \/ Sample2.str_leb b a = true.
Proof.
  unfold Sample2.str_leb.
  destruct (Nat.leb_spec (length a) (length b)); [now left | right].
  apply Nat.leb_le. lia.
Qed.

Lemma sample_two_chunks_covered :
  Forall (covered_by Z [1; 0]) (db Sample.two_chunks).
Proof.
  rewrite two_chunks_db. repeat constructor; exists [1; 0]; split; constructor.
Qed.

Lemma sample_two_chunks_unique : NoDup (map (id Z) (db Sample.two_chunks)).
Proof.
  rewrite two_chunks_db. repeat constructor.
  - intros [E|[]]; discriminate E.
  - intros [].
Qed.

Lemma generate_without_budget_returns_none_witness :
  EmbeddingGenerator_generate Z Sample.add Sample.of_int Sample.embed_unit
    Sample.no_jitter (embedding_generator Sample2.rag_no_retry)
    (lit "hello") (lit "retrieval_document") Sample.empty_world
  = (Ok None, Sample.empty_world).
Proof.
  apply (proj1 (generate_without_budget_returns_none Z Sample.add Sample.of_int
                  Sample.embed_unit Sample.generate_paris Sample.no_jitter)).
  simpl. lia.
Defined.

(** A stored vector of three numbers against a query vector of two. *)
Lemma search_similar_fails_on_null_similarity_witness :
  search_similar Z 0 Sample.add Sample.mul Sample.scan_created Sample.geb
    (Some [1; 0]) 1 Sample2.with_notes
  = (Raise type_error_float_none, Sample2.with_notes).
Proof.
  apply (search_similar_fails_on_null_similarity Z 0 Sample.add Sample.mul
           Sample.scan_created Sample.geb (Some [1; 0]) 1 Sample2.with_notes
           Sample2.notes_node (proj1 sample_scans_permute)).
  - lia.
  - right. now left.
  - reflexivity.
Defined.

Lemma search_similar_returns_stored_chunks_witness :
  1 <= 1
  /\ Forall (fun h => exists c,
               In c (db Sample.two_chunks)
               /\ similarity Z 0 Sample.add Sample.mul c (Some [1; 0])
                  = Some (hit_similarity Z h)
               /\ h = hit_of Z c (hit_similarity Z h))
            [hit_of Z Sample.paris_node 1].
Proof.
  exact (search_similar_returns_stored_chunks Z 0 Sample.add Sample.mul
           Sample.scan_created Sample.geb (Some [1; 0]) 1 Sample.two_chunks
           Sample.two_chunks [hit_of Z Sample.paris_node 1]
           (proj1 sample_scans_permute) eq_refl).
Defined.

Lemma search_similar_with_large_k_returns_every_chunk_witness :
  exists hits,
    search_similar Z 0 Sample.add Sample.mul Sample.scan_latest_first Sample.geb
      (Some [1; 0]) 5 Sample.two_chunks = (Ok hits, Sample.two_chunks)
    /\ Permutation (map (hit_id Z) hits) (map (id Z) (db Sample.two_chunks)).
Proof.
  apply (search_similar_with_large_k_returns_every_chunk Z 0 Sample.add
           Sample.mul Sample.scan_latest_first Sample.geb [1; 0] 5
           Sample.two_chunks (proj2 sample_scans_permute)
           sample_two_chunks_covered).
  rewrite two_chunks_db. simpl. lia.
Defined.

(** Deleting ["notes.pdf"], then searching: only the other document is
    found. *)
Lemma search_after_delete_finds_no_chunk_of_the_source_witness :
  Forall (fun h => hit_source Z h <> lit "notes.pdf")
         [hit_of Z Sample.paris_node 1].
Proof.
  exact (search_after_delete_finds_no_chunk_of_the_source Z 0 Sample.add
           Sample.mul Sample.scan_created Sample.geb (lit "notes.pdf")
           (Some [1; 0]) 5 Sample2.with_notes
           (snd (delete_by_source Z (lit "notes.pdf") Sample2.with_notes))
           [hit_of Z Sample.paris_node 1]
           (proj1 sample_scans_permute) eq_refl).
Defined.

Lemma store_operations_keep_ids_unique_witness :
  NoDup (map (id Z)
           (db (snd (store_chunks_batch Z Sample.str_of_dict
                       [Sample.lyon; Sample2.unmeasured] [Some [0; 1]; None]
                       Sample.two_chunks))))
  /\ NoDup (map (id Z)
              (db (snd (delete_by_source Z (lit "doc.pdf") Sample.two_chunks)))).
Proof.
  destruct (store_operations_keep_ids_unique Z Sample.str_of_dict
              Sample.two_chunks sample_two_chunks_unique) as (_ & Hbatch & Hdel).
  split; [apply Hbatch | apply Hdel].
Defined.

Lemma get_all_sources_lists_each_source_once_witness :
  exists sources,
    get_all_sources Z Sample.scan_created Sample2.str_leb Sample2.with_notes
    = (Ok sources, Sample2.with_notes)
    /\ NoDup sources
    /\ (forall s, In s sources
                  <-> exists c, In c (db Sample2.with_notes) /\ source Z c = s)
    /\ Sorted (fun a b => Sample2.str_leb a b = true) sources.
Proof.
  exact (get_all_sources_lists_each_source_once Z Sample.scan_created
           Sample2.str_leb Sample2.with_notes (proj1 sample_scans_permute)
           sample_str_leb_total).
Defined.

Lemma get_database_info_counts_documents_and_chunks_witness :
  exists info,
    get_database_info Z Sample.scan_created Sample2.str_leb Sample.two_chunks
    = (Ok info, Sample.two_chunks)
    /\ info_total_chunks info = 2
    /\ info_total_documents info = Z.of_nat (length (info_documents info))
    /\ fst (get_all_sources Z Sample.scan_created Sample2.str_leb
              Sample.two_chunks) = Ok (info_documents info)
    /\ 0 <= info_total_documents info <= info_total_chunks info
    /\ (info_total_documents info = 0 <-> info_total_chunks info = 0).
Proof.
  exact (get_database_info_counts_documents_and_chunks Z Sample.scan_created
           Sample2.str_leb Sample.two_chunks (proj1 sample_scans_permute)).
Defined.

Lemma deleted_source_is_no_longer_listed_witness :
  exists before_delete after_delete,
    fst (get_all_sources Z Sample.scan_created Sample2.str_leb Sample2.with_notes)
    = Ok before_delete
    /\ fst (get_all_sources Z Sample.scan_created Sample2.str_leb
              (snd (delete_by_source Z (lit "notes.pdf") Sample2.with_notes)))
       = Ok after_delete
    /\ ~ In (lit "notes.pdf") after_delete
    /\ (forall d, d <> lit "notes.pdf" ->
                  (In d after_delete <-> In d before_delete)).
Proof.
  exact (deleted_source_is_no_longer_listed Z Sample.scan_created
           Sample2.str_leb (lit "notes.pdf") Sample2.with_notes
           (proj1 sample_scans_permute)).
Defined.

Lemma database_status_names_every_source_witness :
  exists status,
    get_database_status Z Sample.scan_created Sample2.str_leb Sample2.with_notes
    = (Ok status, Sample2.with_notes)
    /\ contains (lit "notes.pdf") status = true.
Proof.
  destruct (database_status_names_every_source Z Sample.scan_created
              Sample2.str_leb Sample2.with_notes (proj1 sample_scans_permute))
    as (status & Hrun & Hnames & _).
  exists status. split; [exact Hrun|].
  apply (Hnames Sample2.notes_node). right. now left.
Defined.

Example sample_extraction :
  extract_chunks Sample.convert_paris Sample.path_stem Sample.path_name
    (pdf_processor Sample.rag) (lit "doc.pdf") = Ok [Sample.paris].
Proof. reflexivity. Qed.

Lemma extract_chunks_numbers_chunks_in_order_witness :
  map chunk_index_of [Sample.paris] = [0]
  /\ (forall i c,
        nth_error [Sample.paris] i = Some c ->
        chunk_id_of c
        = Sample.path_stem (lit "doc.pdf") ++ lit "_chunk_"
            ++ PyStr.of_int (chunk_index_of c)
        /\ chunk_source c = Sample.path_name (lit "doc.pdf")
        /\ metadata_length (chunk_metadata c) = Some (len (chunk_text c))).
Proof.
  exact (extract_chunks_numbers_chunks_in_order Sample.convert_paris
           Sample.path_stem Sample.path_name (pdf_processor Sample.rag)
           (lit "doc.pdf") [Sample.paris] sample_extraction).
Defined.

Lemma extract_chunks_ids_are_distinct_witness :
  NoDup (map chunk_id_of [Sample.paris]).
Proof.
  exact (extract_chunks_ids_are_distinct Sample.convert_paris
           Sample.path_stem Sample.path_name (pdf_processor Sample.rag)
           (lit "doc.pdf") [Sample.paris] sample_extraction).
Defined.

Lemma extract_chunks_texts_are_stripped_witness :
  Forall (fun c =>
            20 < len (chunk_text c)
            /\ starts_with_space (chunk_text c) = false
            /\ starts_with_space (rev (chunk_text c)) = false) [Sample.paris].
Proof.
  exact (extract_chunks_texts_are_stripped Sample.convert_paris
           Sample.path_stem Sample.path_name (pdf_processor Sample.rag)
           (lit "doc.pdf") [Sample.paris] sample_extraction).
Defined.

Lemma get_chunk_statistics_bounds_every_length_witness :
  exists st lo hi,
    get_chunk_statistics Z Sample.of_int Z.div (fun x _ => x)
      [Sample.paris; Sample.lyon] = Ok st
    /\ total_chunks Z st = 2
    /\ total_chars Z st = 65
    /\ min_chunk_size Z st = Some lo /\ max_chunk_size Z st = Some hi
    /\ In lo [31; 34] /\ In hi [31; 34]
    /\ Forall (fun n => lo <= n <= hi) [31; 34].
Proof.
  apply (get_chunk_statistics_bounds_every_length Z Sample.of_int Z.div
           (fun x _ => x) [Sample.paris; Sample.lyon] [31; 34]).
  - discriminate.
  - reflexivity.
Defined.

Lemma get_chunk_statistics_needs_every_length_witness :
  get_chunk_statistics Z Sample.of_int Z.div (fun x _ => x)
    [Sample.paris; Sample2.unmeasured; Sample.lyon]
  = Raise key_error_length.
Proof.
  apply (get_chunk_statistics_needs_every_length Z Sample.of_int Z.div
           (fun x _ => x) [Sample.paris; Sample2.unmeasured; Sample.lyon]
           Sample2.unmeasured).
  - repeat constructor.
  - right. now left.
  - reflexivity.
Defined.

Lemma statistics_of_extracted_chunks_witness :
  exists st lo,
    get_chunk_statistics Z Sample.of_int Z.div (fun x _ => x) [Sample.paris]
    = Ok st
    /\ total_chunks Z st = 1
    /\ total_chars Z st = 31
    /\ min_chunk_size Z st = Some lo
    /\ 20 < lo.
Proof.
  apply (statistics_of_extracted_chunks Z Sample.of_int Sample.convert_paris
           Sample.path_stem Sample.path_name Z.div (fun x _ => x)
           (pdf_processor Sample.rag) (lit "doc.pdf") [Sample.paris]
           sample_extraction).
  discriminate.
Defined.

(** Ingestion with a provider that is always busy: the call ends in the
    rate-limit error and the store stays empty. *)
Lemma failed_embedding_stores_nothing_witness :
  fst (process_and_store_pdf Z Sample.add Sample.of_int Sample.embed_busy
         Sample.no_jitter Sample.str_of_dict Sample.convert_paris
         Sample.path_stem Sample.path_name Sample.rag (lit "doc.pdf")
         Sample.empty_world)
  = Raise rate_limit_exceeded
  /\ db (snd (embed_loop Z Sample.add Sample.of_int Sample.embed_busy
                Sample.no_jitter Sample.rag [Sample.paris] [] Sample.empty_world))
     = [].
Proof.
  destruct (failed_embedding_stores_nothing Z Sample.add Sample.of_int
              Sample.embed_busy Sample.no_jitter Sample.str_of_dict
              Sample.convert_paris Sample.path_stem Sample.path_name
              Sample.rag (lit "doc.pdf") Sample.empty_world
              (snd (embed_loop Z Sample.add Sample.of_int Sample.embed_busy
                      Sample.no_jitter Sample.rag [Sample.paris] []
                      Sample.empty_world))
              [Sample.paris] rate_limit_exceeded sample_extraction eq_refl)
    as [Hrun Hdb].
  split; [now rewrite Hrun | exact Hdb].
Defined.

Lemma ingestion_embeds_and_stores_every_chunk_witness :
  exists w',
    process_and_store_pdf Z Sample.add Sample.of_int Sample.embed_unit
      Sample.no_jitter Sample.str_of_dict Sample.convert_paris
      Sample.path_stem Sample.path_name Sample.rag (lit "doc.pdf")
      Sample.empty_world
    = (Raise name_error_stats, w')
    /\ length (db w') = 1%nat.
Proof.
  destruct (ingestion_embeds_and_stores_every_chunk Z Sample.add Sample.of_int
              Sample.embed_unit Sample.no_jitter Sample.str_of_dict
              Sample.convert_paris Sample.path_stem Sample.path_name
              Sample.rag (lit "doc.pdf") Sample.empty_world [Sample.paris]
              sample_extraction)
    as (w' & Hrun & _ & _ & Hnew).
  - discriminate.
  - reflexivity.
  - intros tr content. now exists [1; 0].
  - exists w'. split; [exact Hrun|]. apply Hnew. intros c _ [].
Defined.

Lemma ingestion_of_short_paragraphs_does_nothing_witness :
  process_and_store_pdf Z Sample.add Sample.of_int Sample.embed_unit
    Sample.no_jitter Sample.str_of_dict Sample.convert_twenty
    Sample.path_stem Sample.path_name Sample.rag (lit "doc.pdf")
    Sample.empty_world
  = (Ok {| success := false;
           message := lit "No chunks extracted from PDF";
           chunks_processed := 0;
           statistics := None |}, Sample.empty_world).
Proof.
  apply (ingestion_of_short_paragraphs_does_nothing Z Sample.add Sample.of_int
           Sample.embed_unit Sample.no_jitter Sample.str_of_dict
           Sample.convert_twenty Sample.path_stem Sample.path_name Sample.rag
           (lit "doc.pdf") Sample.empty_world Sample.doc_twenty Sample.twenty).
  - reflexivity.
  - reflexivity.
  - repeat constructor. vm_compute. discriminate.
Defined.

(** Asking for the capital of France with the two chunks in the store. *)
Lemma query_answers_from_the_retrieved_chunks_witness :
  fst (query Z 0 Sample.add Sample.mul Sample.of_int Sample.embed_unit
         Sample.generate_paris Sample.no_jitter Sample.scan_created Sample.geb
         Sample.rag Sample2.question (Some 1) Sample.two_chunks)
  = Ok {| question_of := Sample2.question;
          answer := Some (lit "Paris.");
          sources := [hit_of Z Sample.paris_node 1] |}.
Proof.
  rewrite (query_answers_from_the_retrieved_chunks Z 0 Sample.add Sample.mul
             Sample.of_int Sample.embed_unit Sample.generate_paris
             Sample.no_jitter Sample.scan_created Sample.geb Sample.rag
             Sample2.question (Some 1) Sample.two_chunks Sample2.asked
             (Some [1; 0]) (hit_of Z Sample.paris_node 1) [] (lit "Paris.")
             eq_refl eq_refl eq_refl eq_refl).
  reflexivity.
Defined.

Lemma query_raises_the_first_failure_witness :
  fst (query Z 0 Sample.add Sample.mul Sample.of_int Sample.embed_busy
         Sample.generate_paris Sample.no_jitter Sample.scan_created Sample.geb
         Sample.rag Sample2.question None Sample.two_chunks)
  = Raise rate_limit_exceeded.
Proof.
  destruct (query_raises_the_first_failure Z 0 Sample.add Sample.mul
              Sample.of_int Sample.embed_busy Sample.generate_paris
              Sample.no_jitter Sample.scan_created Sample.geb Sample.rag
              Sample2.question None Sample.two_chunks rate_limit_exceeded)
    as (Hemb & _ & _).
  destruct (Hemb (snd (generate_query_embedding Z Sample.add Sample.of_int
                         Sample.embed_busy Sample.no_jitter
                         (embedding_generator Sample.rag) Sample2.question
                         Sample.two_chunks)) eq_refl) as [Hrun _].
  now rewrite Hrun.
Defined.

Lemma query_result_is_grounded_in_the_store_witness :
  Forall (fun h => exists c,
            In c (db Sample.two_chunks)
            /\ h = hit_of Z c (hit_similarity Z h))
         [hit_of Z Sample.paris_node 1].
Proof.
  exact (proj1 (proj2 (proj2
           (query_result_is_grounded_in_the_store Z 0 Sample.add Sample.mul
              Sample.of_int Sample.embed_unit Sample.generate_paris
              Sample.no_jitter Sample.scan_created Sample.geb Sample.rag
              Sample2.question (Some 1) Sample.two_chunks
              (World (db Sample.two_chunks)
                 (trace Sample2.asked
                    ++ [EvGenerate (lit "gemini-2.5-flash-lite")
                          (_create_prompt Sample2.question
                             (_build_context Z [hit_of Z Sample.paris_node 1]))]))
              {| question_of := Sample2.question;
                 answer := Some (lit "Paris.");
                 sources := [hit_of Z Sample.paris_node 1] |}
              (proj1 sample_scans_permute) eq_refl)))).
Defined.

Lemma prompt_contains_question_and_every_chunk_witness :
  contains (lit "Lyon is a city on the river Rhone.")
    (_create_prompt Sample2.question
       (_build_context Z [hit_of Z Sample.paris_node 1;
                          hit_of Z Sample.lyon_node 1])) = true.
Proof.
  apply (prompt_contains_question_and_every_chunk Z Sample2.question
           [hit_of Z Sample.paris_node 1; hit_of Z Sample.lyon_node 1]
           (hit_of Z Sample.lyon_node 1)).
  right. now left.
Defined.

(** Uploading the sample document: the chunk is stored and the handler
    shows the name error. *)
Lemma upload_of_a_good_pdf_shows_the_name_error_witness :
  exists status w',
    upload_and_process_pdf Z Sample.add Sample.of_int Sample.embed_unit
      Sample.no_jitter Sample.str_of_dict Sample.scan_created
      Sample.convert_paris Sample.path_stem Sample.path_name Sample2.str_leb
      Sample2.basename Sample2.num_str Sample.rag (Some (lit "doc.pdf"))
      Sample.empty_world
    = (Ok (cross_mark ++ lit " **Error processing PDF:** "
             ++ lit "name 'stats' is not defined", status), w')
    /\ db w' = [Sample.paris_node].
Proof.
  exact (upload_of_a_good_pdf_shows_the_name_error Z Sample.add Sample.of_int
           Sample.embed_unit Sample.no_jitter Sample.str_of_dict
           Sample.scan_created Sample.convert_paris Sample.path_stem
           Sample.path_name Sample2.str_leb Sample2.basename Sample2.num_str
           Sample.rag (lit "doc.pdf") Sample.empty_world
           (World []
              [EvEmbed (lit "gemini-embedding-001")
                       (lit "Paris is the capital of France.")
                       (lit "retrieval_document")])
           [Sample.paris] [Some [1; 0]] sample_extraction
           ltac:(discriminate) eq_refl).
Defined.

Lemma query_handler_never_raises_witness :
  query_rag_system Z 0 Sample.add Sample.mul Sample.of_int Sample.embed_unit
    Sample.generate_paris Sample.no_jitter Sample.scan_created Sample.geb
    Sample2.format_4f Sample2.py_int Sample.rag (Some (lit "   ")) 5
    Sample.two_chunks
  = (Ok (cross_mark ++ lit " Please enter a question", []), Sample.two_chunks).
Proof.
  apply (proj2 (query_handler_never_raises Z 0 Sample.add Sample.mul
                  Sample.of_int Sample.embed_unit Sample.generate_paris
                  Sample.no_jitter Sample.scan_created Sample.geb
                  Sample2.format_4f Sample2.py_int Sample.rag
                  (Some (lit "   ")) 5 Sample.two_chunks)).
  reflexivity.
Defined.

(** Deleting [" notes.pdf "], typed with spaces around it. *)
Lemma delete_handler_deletes_the_stripped_name_witness :
  exists msg status w',
    delete_document_handler Z Sample.scan_created Sample2.str_leb
      (Some (lit " notes.pdf ")) Sample2.with_notes = (Ok (msg, status), w')
    /\ msg = check_mark ++ lit " Successfully deleted all chunks from: "
               ++ lit " notes.pdf "
    /\ db w' = [Sample.paris_node].
Proof.
  destruct (delete_handler_deletes_the_stripped_name Z Sample.scan_created
              Sample2.str_leb (Some (lit " notes.pdf ")) Sample2.with_notes)
    as (msg & status & w' & Hrun & _ & _ & Hdel).
  destruct (Hdel (lit " notes.pdf ") eq_refl eq_refl) as [Hmsg Hdb].
  exists msg, status, w'. split; [exact Hrun|]. split; [exact Hmsg | exact Hdb].
Defined.

(** Two chunks written by the batch method, the second with a vector of
    three numbers; a query vector of two numbers, top-1: the count is 2 and
    the search raises [TypeError] instead of returning one result. *)
Lemma search_similar_raises_on_a_longer_stored_vector :
  fst (get_chunk_count Z
         (snd (store_chunks_batch Z Sample.str_of_dict [Sample.paris; Sample.lyon]
                 [Some [1; 0]; Some [1; 0; 0]] Sample.empty_world)))
  = Ok 2
  /\ fst (search_similar Z 0 Sample.add Sample.mul Sample.scan_created Sample.geb
            (Some [1; 0]) 1
            (snd (store_chunks_batch Z Sample.str_of_dict
                    [Sample.paris; Sample.lyon]
                    [Some [1; 0]; Some [1; 0; 0]] Sample.empty_world)))
     = Raise type_error_float_none.
Proof. split; reflexivity. Qed.
